(** * usePlaylistManager: spaced-repetition scheduling and daily sessions

    A shallow embedding of the hook [usePlaylistManager] (the scheduling
    engine and the playlist state machine) and of the part of [App.tsx]
    that resumes an unfinished "new" session, followed by the cursor of
    [VideoPlayer.tsx] and the video list of [useVideoManager].

    Conventions of the embedding.
    - A [Date] is an instant in milliseconds read on the local clock, a [Z].
      The zone offset is taken to be constant (no daylight-saving jump), so
      one calendar day is [MS_PER_DAY] milliseconds,
      [d.setDate(d.getDate() + n)] adds [n] days and
      [d.setHours(0, 0, 0, 0)] rounds down to a multiple of a day.
    - The three [useState] cells ([videos], [playlists], [collections]) are
      the fields of [State]; a functional updater [setX(prev => f prev)] is
      the function [f] applied to the field, and the updaters queued by one
      call are applied in the order they are queued.
    - [new Date()] and [generateUUID()] read the environment: the value
      they return is an argument of the operation that calls them. *)

From Stdlib Require Import ZArith List String Ascii Bool Lia Arith.
From Stdlib Require Import Sorting.Sorted Sorting.Permutation.
Import ListNotations.

Open Scope string_scope.
Open Scope Z_scope.

(** ** Dates *)

Module Clock.

Definition Date := Z.

Definition MS_PER_DAY : Z := 1000 * 60 * 60 * 24.

(** [d.setDate(d.getDate() + n)] *)
Definition addDays (d : Date) (n : Z) : Date := d + n * MS_PER_DAY.

(** [d.setHours(0, 0, 0, 0)] *)
Definition midnight (d : Date) : Date := d - d mod MS_PER_DAY.

End Clock.

Import Clock.

(** ** The data model ([../types]) *)

Inductive VideoStatus := StNew | StLearning | StCompleted.

Definition VideoStatus_eqb (a b : VideoStatus) : bool :=
  match a, b with
  | StNew, StNew | StLearning, StLearning | StCompleted, StCompleted => true
  | _, _ => false
  end.

Record VideoFile := mkVideo {
  v_id : string;
  v_name : string;
  v_fileUrl : option string;
  v_dateAdded : Date;
  v_reviewCount : nat;
  v_status : VideoStatus;
  v_collectionId : string;
  v_episodeNumber : nat;
  v_firstPlayDate : option Date;
  v_nextReviewDate : option Date
}.

Record Collection := mkCollection {
  c_id : string;
  c_name : string;
  c_description : option string;
  c_dateCreated : Date;
  c_isActive : bool;
  c_totalVideos : nat;
  c_completedVideos : nat;
  c_color : string
}.

Inductive PlaylistType := PtNew | PtReview.

Definition PlaylistType_eqb (a b : PlaylistType) : bool :=
  match a, b with
  | PtNew, PtNew | PtReview, PtReview => true
  | _, _ => false
  end.

Record PlaylistItem := mkItem {
  i_videoId : string;
  i_reviewType : PlaylistType;
  i_reviewNumber : nat;
  i_daysSinceFirstPlay : option Z;
  i_isRecommendedForVideo : option bool
}.

Record DailyPlaylist := mkPlaylist {
  p_id : string;
  p_date : Date;
  p_items : list PlaylistItem;
  p_isCompleted : bool;
  p_lastPlayedIndex : nat;
  p_isExtraSession : bool;
  p_playlistType : PlaylistType
}.

(** The three state cells of the hook. *)
Record State := mkState {
  videos : list VideoFile;
  playlists : list DailyPlaylist;
  collections : list Collection
}.

(** ** Constants *)

Definition REVIEW_INTERVALS : list Z := [1; 4; 7; 15; 30; 90].
Definition MAX_NEW_PER_DAY : nat := 4.
Definition MAX_REVIEW_PER_DAY : nat := 600.

(** [REVIEW_INTERVALS[i]] at an index inside the table. *)
Definition interval (i : nat) : Z := nth i REVIEW_INTERVALS 0.

(** ** Ingestion *)

(** The record [addVideos] builds for the file at position [index]. *)
Definition newVideo (id name : string) (fileUrl : string) (now : Date)
    (collectionId : string) (index : nat) : VideoFile :=
  {| v_id := id; v_name := name; v_fileUrl := Some fileUrl;
     v_dateAdded := now; v_reviewCount := 0; v_status := StNew;
     v_collectionId := collectionId; v_episodeNumber := index + 1;
     v_firstPlayDate := None; v_nextReviewDate := None |}.

(** ** markVideoAsPlayed *)

(** The body of the [map] callback for the video whose id matches. *)
Definition playedVideo (now : Date) (video : VideoFile) : VideoFile :=
  match v_firstPlayDate video with
  | None =>
      let nextReviewDate := midnight (addDays now (interval 0)) in
      {| v_id := v_id video; v_name := v_name video;
         v_fileUrl := v_fileUrl video; v_dateAdded := v_dateAdded video;
         v_reviewCount := 1; v_status := StLearning;
         v_collectionId := v_collectionId video;
         v_episodeNumber := v_episodeNumber video;
         v_firstPlayDate := Some now;
         v_nextReviewDate := Some nextReviewDate |}
  | Some first =>
      let newReviewCount := (v_reviewCount video + 1)%nat in
      let '(nextReviewDate, status) :=
        if (newReviewCount <? 5)%nat
        then (Some (addDays now (interval (newReviewCount - 1))), StLearning)
        else (None, StCompleted) in
      {| v_id := v_id video; v_name := v_name video;
         v_fileUrl := v_fileUrl video; v_dateAdded := v_dateAdded video;
         v_reviewCount := newReviewCount; v_status := status;
         v_collectionId := v_collectionId video;
         v_episodeNumber := v_episodeNumber video;
         v_firstPlayDate := Some first;
         v_nextReviewDate := nextReviewDate |}
  end.

(** Whether the callback takes the branch that sets ['completed'] (and
    queues the increment of the collection's [completedVideos]). *)
Definition reachesCompleted (video : VideoFile) : bool :=
  match v_firstPlayDate video with
  | None => false
  | Some _ => negb (v_reviewCount video + 1 <? 5)%nat
  end.

Definition bumpCompleted (collectionId : string) (c : Collection) : Collection :=
  if (c_id c =? collectionId)%string
  then {| c_id := c_id c; c_name := c_name c;
          c_description := c_description c;
          c_dateCreated := c_dateCreated c; c_isActive := c_isActive c;
          c_totalVideos := c_totalVideos c;
          c_completedVideos := (c_completedVideos c + 1)%nat;
          c_color := c_color c |}
  else c.

Definition markVideoAsPlayed (now : Date) (videoId : string) (st : State) : State :=
  {| videos :=
       map (fun video => if (v_id video =? videoId)%string
                         then playedVideo now video else video)
           (videos st);
     playlists := playlists st;
     collections :=
       fold_left
         (fun cs video =>
            if (v_id video =? videoId)%string && reachesCompleted video
            then map (bumpCompleted (v_collectionId video)) cs
            else cs)
         (videos st) (collections st) |}.

(** A video played through at each instant of [times], oldest first. *)
Definition playedAt (times : list Date) (video : VideoFile) : VideoFile :=
  fold_left (fun v t => playedVideo t v) times video.

(** [markVideoAsPlayed(videoId)] called at each instant of [times]. *)
Definition markedAt (times : list Date) (videoId : string) (st : State) : State :=
  fold_left (fun s t => markVideoAsPlayed t videoId s) times st.

(** ** The scheduler *)

(** [getDaysSinceFirstPlay]: [Math.floor] of the elapsed time in days. *)
Definition getDaysSinceFirstPlay (now firstPlayDate : Date) : Z :=
  (now - firstPlayDate) / MS_PER_DAY.

(** [collections.filter(c => c.isActive).map(c => c.id)] *)
Definition activeCollectionIds (st : State) : list string :=
  map c_id (filter c_isActive (collections st)).

(** [ids.includes(x)] *)
Definition includes (ids : list string) (x : string) : bool :=
  existsb (String.eqb x) ids.

Definition activeVideos (st : State) : list VideoFile :=
  filter (fun v => includes (activeCollectionIds st) (v_collectionId v))
         (videos st).

Definition isNew (v : VideoFile) : bool := VideoStatus_eqb (v_status v) StNew.

Definition getTodayNewVideos (isExtraSession : bool) (st : State) : list PlaylistItem :=
  let newVideos :=
    if isExtraSession
    then firstn (MAX_NEW_PER_DAY + 2) (filter isNew (activeVideos st))
    else firstn MAX_NEW_PER_DAY (filter isNew (activeVideos st)) in
  map (fun video =>
         {| i_videoId := v_id video; i_reviewType := PtNew;
            i_reviewNumber := 1; i_daysSinceFirstPlay := None;
            i_isRecommendedForVideo := None |})
      newVideos.

(** The predicate of the [filter] that keeps the videos due today. *)
Definition isDue (today : Date) (video : VideoFile) : bool :=
  match v_nextReviewDate video with
  | None => false
  | Some next =>
      if VideoStatus_eqb (v_status video) StCompleted then false
      else midnight next <=? today
  end.

(** The comparator handed to [sort]. *)
Definition compareReview (a b : VideoFile) : Z :=
  match v_nextReviewDate a, v_nextReviewDate b with
  | Some x, Some y => x - y
  | _, _ => 0
  end.

(** [Array.prototype.sort] is a stable sort; on a comparator that is a
    total preorder every stable sort returns the same array, here the one
    obtained by insertion. *)
Fixpoint insertSorted {A : Type} (cmp : A -> A -> Z) (x : A) (l : list A) : list A :=
  match l with
  | [] => [x]
  | y :: rest =>
      if cmp x y <=? 0 then x :: y :: rest
      else y :: insertSorted cmp x rest
  end.

Definition sortBy {A : Type} (cmp : A -> A -> Z) (l : list A) : list A :=
  fold_right (insertSorted cmp) [] l.

(** The array [reviewVideos] after the [sort]. *)
Definition reviewVideos (now : Date) (st : State) : list VideoFile :=
  let today := midnight now in
  sortBy compareReview (filter (isDue today) (activeVideos st)).

Definition reviewItem (now : Date) (video : VideoFile) : PlaylistItem :=
  {| i_videoId := v_id video;
     i_reviewType := PtReview;
     i_reviewNumber := v_reviewCount video + 1;
     i_daysSinceFirstPlay :=
       Some (match v_firstPlayDate video with
             | Some first => getDaysSinceFirstPlay now first
             | None => 0
             end);
     i_isRecommendedForVideo :=
       Some (existsb (Nat.eqb (v_reviewCount video)) [3; 4; 5]%nat) |}.

Definition getTodayReviews (now : Date) (st : State) : list PlaylistItem :=
  map (reviewItem now) (reviewVideos now st).

Record PlaylistPreview := mkPreview {
  pv_newVideos : list PlaylistItem;
  pv_reviews : list PlaylistItem;
  pv_totalCount : nat;
  pv_isExtraSession : bool
}.

Definition generateTodayPlaylist (isExtraSession : bool) (now : Date) (st : State)
  : PlaylistPreview :=
  let newVideos := getTodayNewVideos isExtraSession st in
  let reviews := getTodayReviews now st in
  {| pv_newVideos := newVideos; pv_reviews := reviews;
     pv_totalCount := List.length newVideos + List.length reviews;
     pv_isExtraSession := isExtraSession |}.

(** ** The session manager *)

(** An incomplete "new" playlist created on the day of [today]: the
    predicate of the [find] in [createTodayPlaylist] and [getLastPlaylist]. *)
Definition isOpenNewOn (today : Date) (p : DailyPlaylist) : bool :=
  if negb (PlaylistType_eqb (p_playlistType p) PtNew) || p_isCompleted p
  then false
  else midnight (p_date p) =? today.

(** [createTodayPlaylist]; [uuid] is what [generateUUID()] returns when the
    call reaches it. The result is the playlist returned and the state
    after the queued [setPlaylists]. *)
Definition createTodayPlaylist (playlistType : PlaylistType)
    (isExtraSession : bool) (now : Date) (uuid : string) (st : State)
  : DailyPlaylist * State :=
  let today := midnight now in
  let create items :=
    let playlist :=
      {| p_id := uuid; p_date := now; p_items := items;
         p_isCompleted := false; p_lastPlayedIndex := 0%nat;
         p_isExtraSession := isExtraSession;
         p_playlistType := playlistType |} in
    (playlist,
     {| videos := videos st; playlists := playlist :: playlists st;
        collections := collections st |}) in
  match playlistType with
  | PtNew =>
      match find (isOpenNewOn today) (playlists st) with
      | Some existing => (existing, st)
      | None => create (getTodayNewVideos isExtraSession st)
      end
  | PtReview => create (getTodayReviews now st)
  end.

Definition getLastPlaylist (now : Date) (st : State) : option DailyPlaylist :=
  find (isOpenNewOn (midnight now)) (playlists st).

(** The [map] callback of [updatePlaylistProgress]. *)
Definition setProgress (playlistId : string) (lastPlayedIndex : nat)
    (isCompleted : bool) (playlist : DailyPlaylist) : DailyPlaylist :=
  if (p_id playlist =? playlistId)%string
  then {| p_id := p_id playlist; p_date := p_date playlist;
          p_items := p_items playlist;
          p_isCompleted := isCompleted;
          p_lastPlayedIndex := lastPlayedIndex;
          p_isExtraSession := p_isExtraSession playlist;
          p_playlistType := p_playlistType playlist |}
  else playlist.

(** [playlist.items.forEach(item => markVideoAsPlayed(item.videoId))] *)
Definition markItemsAsPlayed (now : Date) (items : list PlaylistItem) (st : State) : State :=
  fold_left (fun s item => markVideoAsPlayed now (i_videoId item) s) items st.

(** [updatePlaylistProgress]. The [find] reads the playlists of the state
    the call is made in; the function has no [throw] and no return value. *)
Definition updatePlaylistProgress (now : Date) (playlistId : string)
    (lastPlayedIndex : nat) (isCompleted : bool) (st : State) : State :=
  let st1 :=
    {| videos := videos st;
       playlists := map (setProgress playlistId lastPlayedIndex isCompleted)
                        (playlists st);
       collections := collections st |} in
  if isCompleted
  then match find (fun p => (p_id p =? playlistId)%string) (playlists st) with
       | Some playlist => markItemsAsPlayed now (p_items playlist) st1
       | None => st1
       end
  else st1.

(** How a call of a JavaScript function ends. *)
Inductive Completion (A : Type) :=
| Returns (result : A)
| Throws (message : string).
Arguments Returns {A} result.
Arguments Throws {A} message.

(** A call of [updatePlaylistProgress] seen from its caller: the body
    contains no [throw], so the call always returns (the value
    [undefined]); what the caller can observe is the state. *)
Definition callUpdatePlaylistProgress (now : Date) (playlistId : string)
    (lastPlayedIndex : nat) (isCompleted : bool) (st : State) : Completion State :=
  Returns (updatePlaylistProgress now playlistId lastPlayedIndex isCompleted st).

(** ** Removal *)

(** The collection update queued by [deleteVideo] for the video found. *)
Definition dropFromTotals (video : VideoFile) (c : Collection) : Collection :=
  if (c_id c =? v_collectionId video)%string
  then {| c_id := c_id c; c_name := c_name c;
          c_description := c_description c;
          c_dateCreated := c_dateCreated c; c_isActive := c_isActive c;
          c_totalVideos := Nat.max 0 (c_totalVideos c - 1);
          c_completedVideos :=
            if VideoStatus_eqb (v_status video) StCompleted
            then Nat.max 0 (c_completedVideos c - 1)
            else c_completedVideos c;
          c_color := c_color c |}
  else c.

(** [deleteVideo]; [fileDeleted] tells whether
    [fileStorage.deleteFile(videoId)] resolved: when it rejects, the
    [catch] skips the update of the collection totals. *)
Definition deleteVideo (fileDeleted : bool) (videoId : string) (st : State) : State :=
  let collections' :=
    match find (fun v => (v_id v =? videoId)%string) (videos st) with
    | Some video =>
        if fileDeleted then map (dropFromTotals video) (collections st)
        else collections st
    | None => collections st
    end in
  {| videos := filter (fun v => negb (v_id v =? videoId)%string) (videos st);
     playlists := playlists st;
     collections := collections' |}.

(** The [map] callback of [removeVideoById]. *)
Definition dropItems (videoId : string) (p : DailyPlaylist) : DailyPlaylist :=
  {| p_id := p_id p; p_date := p_date p;
     p_items := filter (fun item => negb (i_videoId item =? videoId)%string)
                       (p_items p);
     p_isCompleted := p_isCompleted p;
     p_lastPlayedIndex := p_lastPlayedIndex p;
     p_isExtraSession := p_isExtraSession p;
     p_playlistType := p_playlistType p |}.

Definition removeVideoById (fileDeleted : bool) (videoId : string) (st : State) : State :=
  let st1 := deleteVideo fileDeleted videoId st in
  {| videos := videos st1;
     playlists := map (dropItems videoId) (playlists st1);
     collections := collections st1 |}.

(** [deleteCollection]: the failures of the file store are caught per
    video, so the two updaters are always queued. *)
Definition deleteCollection (collectionId : string) (st : State) : State :=
  {| videos := filter (fun v => negb (v_collectionId v =? collectionId)%string)
                      (videos st);
     playlists := playlists st;
     collections := filter (fun c => negb (c_id c =? collectionId)%string)
                           (collections st) |}.

(** ** Resuming a "new" session ([App.tsx]) *)

(** [handleProgressUpdate]: the player's progress callback.
    [currentPlaylist] is the cell of [App] that holds the playlist handed
    to the player; the comparison reads that copy, and the time is not
    read since nothing is completed. *)
Definition handleProgressUpdate (currentPlaylist : option DailyPlaylist)
    (idx : nat) (st : State) : State :=
  match currentPlaylist with
  | Some current =>
      if negb (p_lastPlayedIndex current =? idx)%nat
      then updatePlaylistProgress 0 (p_id current) idx false st
      else st
  | None => st
  end.

(** The items of a playlist whose video is still in the store:
    [items.filter(item => videos.find(v => v.id === item.videoId))]. *)
Definition validItems (st : State) (items : list PlaylistItem) : list PlaylistItem :=
  filter (fun item =>
            match find (fun v => (v_id v =? i_videoId item)%string) (videos st) with
            | Some _ => true
            | None => false
            end)
         items.

(** The predicate [handleNewLearning] and [handleStartPlaylist] look an
    unfinished "new" playlist up with. *)
Definition isUnfinishedNew (p : DailyPlaylist) : bool :=
  negb (p_isCompleted p)
  && PlaylistType_eqb (p_playlistType p) PtNew
  && (p_lastPlayedIndex p <? List.length (p_items p))%nat.

(** What [handleNewLearning] decides. [PurgeAndReload ps] stands for the
    branch that rewrites the stored playlists to [ps] and reloads the page. *)
Inductive NewLearningAction :=
| PurgeAndReload (stored : list DailyPlaylist)
| ResumePreview (items : list PlaylistItem) (isExtraSession : bool)
| StartNewPreview.

Definition handleNewLearning (st : State) : NewLearningAction :=
  match find isUnfinishedNew (playlists st) with
  | Some lastNewPlaylist =>
      let valid := validItems st (p_items lastNewPlaylist) in
      if (List.length valid =? 0)%nat
      then PurgeAndReload
             (filter (fun p => p_isCompleted p
                               || negb (PlaylistType_eqb (p_playlistType p) PtNew))
                     (playlists st))
      else ResumePreview valid (p_isExtraSession lastNewPlaylist)
  | None => StartNewPreview
  end.

(** [handleStartPlaylist] for the "new" preview: reuse an unfinished
    playlist with the previewed extra flag, else ask the hook for one. *)
Definition handleStartPlaylist_new (isExtraSession : bool) (now : Date)
    (uuid : string) (st : State) : DailyPlaylist * State :=
  match find (fun p => isUnfinishedNew p
                       && Bool.eqb (p_isExtraSession p) isExtraSession)
             (playlists st) with
  | Some playlist => (playlist, st)
  | None => createTodayPlaylist PtNew isExtraSession now uuid st
  end.

(** ** Collections *)

(** [createCollection]; [uuid] and [color] are what [generateUUID()] and
    [generateRandomColor()] return. The result is the id handed back and
    the state after the queued [setCollections]. *)
Definition createCollection (name : string) (description : option string)
    (now : Date) (uuid color : string) (st : State) : string * State :=
  let newCollection :=
    {| c_id := uuid; c_name := name; c_description := description;
       c_dateCreated := now; c_isActive := true;
       c_totalVideos := 0; c_completedVideos := 0; c_color := color |} in
  (c_id newCollection,
   {| videos := videos st; playlists := playlists st;
      collections := collections st ++ [newCollection] |}).

(** The [map] callback of [updateCollection]. *)
Definition rename (collectionId name : string) (description : option string)
    (c : Collection) : Collection :=
  if (c_id c =? collectionId)%string
  then {| c_id := c_id c; c_name := name; c_description := description;
          c_dateCreated := c_dateCreated c; c_isActive := c_isActive c;
          c_totalVideos := c_totalVideos c;
          c_completedVideos := c_completedVideos c;
          c_color := c_color c |}
  else c.

Definition updateCollection (collectionId name : string)
    (description : option string) (st : State) : State :=
  {| videos := videos st; playlists := playlists st;
     collections := map (rename collectionId name description) (collections st) |}.

(** The [map] callback of [toggleCollection]. *)
Definition flipActive (collectionId : string) (c : Collection) : Collection :=
  if (c_id c =? collectionId)%string
  then {| c_id := c_id c; c_name := c_name c;
          c_description := c_description c;
          c_dateCreated := c_dateCreated c;
          c_isActive := negb (c_isActive c);
          c_totalVideos := c_totalVideos c;
          c_completedVideos := c_completedVideos c;
          c_color := c_color c |}
  else c.

Definition toggleCollection (collectionId : string) (st : State) : State :=
  {| videos := videos st; playlists := playlists st;
     collections := map (flipActive collectionId) (collections st) |}.

(** ** addVideos *)

(** [name.replace(/\.[^/.]+$/, "")] on the bytes of the name: the part
    from a dot on is dropped when what follows that dot, up to the end of
    the name, is not empty and holds neither a dot nor a slash. *)
Definition isDot (c : Ascii.ascii) : bool := Ascii.eqb c "."%char.
Definition isSlash (c : Ascii.ascii) : bool := Ascii.eqb c "/"%char.

(** [s] matches [[^/.]+$]. *)
Fixpoint isExtension (s : string) : bool :=
  match s with
  | EmptyString => false
  | String c rest =>
      negb (isDot c || isSlash c)
      && match rest with
         | EmptyString => true
         | String _ _ => isExtension rest
         end
  end.

Fixpoint stripExtension (s : string) : string :=
  match s with
  | EmptyString => EmptyString
  | String c rest =>
      if isDot c && isExtension rest then EmptyString
      else String c (stripExtension rest)
  end.

(** What the environment supplies for one file of a call of [addVideos]:
    the id from [generateUUID()], the file's name, the URL the file store
    returned (or the temporary URL of the fallback branch) and the instant
    [new Date()] read for it. *)
Record Upload := mkUpload {
  u_id : string;
  u_fileName : string;
  u_fileUrl : string;
  u_at : Date
}.

(** [files.map((file, index) => ...)], from position [index] on. *)
Fixpoint ingest (index : nat) (collectionId : string) (files : list Upload)
  : list VideoFile :=
  match files with
  | [] => []
  | file :: rest =>
      newVideo (u_id file) (stripExtension (u_fileName file)) (u_fileUrl file)
               (u_at file) collectionId index
      :: ingest (S index) collectionId rest
  end.

(** The collection update queued by [addVideos]. *)
Definition addToTotal (collectionId : string) (n : nat) (c : Collection) : Collection :=
  if (c_id c =? collectionId)%string
  then {| c_id := c_id c; c_name := c_name c;
          c_description := c_description c;
          c_dateCreated := c_dateCreated c; c_isActive := c_isActive c;
          c_totalVideos := c_totalVideos c + n;
          c_completedVideos := c_completedVideos c;
          c_color := c_color c |}
  else c.

(** [addVideos] when every file gets a URL (the call rethrows otherwise):
    the ids handed back and the state after the two queued updaters. *)
Definition addVideos (files : list Upload) (collectionId : string) (st : State)
  : list string * State :=
  let newVideos := ingest 0 collectionId files in
  (map v_id newVideos,
   {| videos := videos st ++ newVideos;
      playlists := playlists st;
      collections := map (addToTotal collectionId (List.length newVideos))
                         (collections st) |}).

(** ** Queries *)

Definition getVideoById (id : string) (st : State) : option VideoFile :=
  find (fun v => (v_id v =? id)%string) (videos st).

(** The fields of [LearningStats] that [getStats] computes on integers
    and booleans; [overallProgress], a rounded floating-point quotient, is
    not part of this record. *)
Record LearningStats := mkStats {
  s_totalVideos : nat;
  s_completedVideos : nat;
  s_todayNewCount : nat;
  s_todayReviewCount : nat;
  s_activeCollections : nat;
  s_canAddExtra : bool
}.

Definition getStats (now : Date) (st : State) : LearningStats :=
  let active := activeVideos st in
  let newVideos := getTodayNewVideos false st in
  let reviews := getTodayReviews now st in
  {| s_totalVideos := List.length active;
     s_completedVideos :=
       List.length
         (filter (fun v => VideoStatus_eqb (v_status v) StCompleted) active);
     s_todayNewCount := List.length newVideos;
     s_todayReviewCount := List.length reviews;
     s_activeCollections := List.length (filter c_isActive (collections st));
     s_canAddExtra :=
       (List.length newVideos =? 0)%nat && existsb isNew active |}.

(** ** The player's cursor ([VideoPlayer.tsx]) *)

Module Player.

(** The cells of the player that its navigation reads and writes, and the
    number of times it has called [onPlaylistComplete]. The resume offsets
    that the navigation clears are kept by another module and are not part
    of this record. *)
Record Cursor := mkCursor {
  currentIndex : Z;
  isPlaying : bool;
  videoError : bool;
  completions : nat
}.

Definition onPlaylistComplete (c : Cursor) : Cursor :=
  {| currentIndex := currentIndex c; isPlaying := isPlaying c;
     videoError := videoError c; completions := S (completions c) |}.

(** [goToNext] on a playlist of [len] items. *)
Definition goToNext (len : nat) (c : Cursor) : Cursor :=
  if currentIndex c <? Z.of_nat len - 1
  then {| currentIndex := currentIndex c + 1; isPlaying := false;
          videoError := false; completions := completions c |}
  else onPlaylistComplete c.

Definition goToPrevious (c : Cursor) : Cursor :=
  if currentIndex c >? 0
  then {| currentIndex := currentIndex c - 1; isPlaying := false;
          videoError := false; completions := completions c |}
  else c.

(** [handleVideoEnded]; [autoPlay] is the value of [autoPlayRef.current]. *)
Definition handleVideoEnded (autoPlay : bool) (len : nat) (c : Cursor) : Cursor :=
  if autoPlay && (currentIndex c <? Z.of_nat len - 1)
  then goToNext len c
  else if currentIndex c >=? Z.of_nat len - 1
       then onPlaylistComplete c
       else c.

End Player.

(** ** The plain video list ([useVideoManager]) *)

Module VideoManager.

Inductive MediaType := Audio | Video.

(** What [addVideo] reads of a [File]. *)
Record FileInfo := mkFile {
  f_name : string;
  f_type : string;
  f_size : nat
}.

Record ManagedVideo := mkManaged {
  m_id : string;
  m_name : string;
  m_fileUrl : string;
  m_dateAdded : Date;
  m_status : VideoStatus;
  m_reviewCount : nat;
  m_collectionId : string;
  m_fileSize : nat;
  m_mimeType : string;
  m_mediaType : MediaType
}.

(** An upper-case Latin letter becomes the lower-case one; every other
    byte is kept. *)
Definition lowerAscii (c : ascii) : ascii :=
  let n := nat_of_ascii c in
  if ((65 <=? n) && (n <=? 90))%nat then ascii_of_nat (n + 32) else c.

Fixpoint lowerString (s : string) : string :=
  match s with
  | EmptyString => EmptyString
  | String c rest => String (lowerAscii c) (lowerString rest)
  end.

(** [/suffix$/i.test(s)] for a [suffix] of lower-case letters, digits and
    dots: some ending of [s] is [suffix] up to the case of its letters. *)
Fixpoint endsWithCI (suffix s : string) : bool :=
  (lowerString s =? suffix)%string
  || match s with
     | EmptyString => false
     | String _ rest => endsWithCI suffix rest
     end.

Definition audioExtensions : list string :=
  ["mp3"; "wav"; "m4a"; "aac"; "ogg"; "oga"; "flac"].

(** [file.type.startsWith('audio/') ||
     /\.(mp3|wav|m4a|aac|ogg|oga|flac)$/i.test(file.name)] *)
Definition isAudio (file : FileInfo) : bool :=
  prefix "audio/" (f_type file)
  || existsb (fun ext => endsWithCI (String "." ext) (f_name file))
             audioExtensions.

(** [addVideo]; [uuid], [url] and [now] are what [generateUUID()],
    [URL.createObjectURL(file)] and [new Date()] return. *)
Definition addVideo (file : FileInfo) (collectionId : string) (uuid url : string)
    (now : Date) (videos : list ManagedVideo) : string * list ManagedVideo :=
  let newVideo :=
    {| m_id := uuid; m_name := stripExtension (f_name file);
       m_fileUrl := url; m_dateAdded := now; m_status := StNew;
       m_reviewCount := 0; m_collectionId := collectionId;
       m_fileSize := f_size file; m_mimeType := f_type file;
       m_mediaType := if isAudio file then Audio else Video |} in
  (m_id newVideo, (videos ++ [newVideo])%list).

Definition deleteVideo (videoId : string) (videos : list ManagedVideo)
  : list ManagedVideo :=
  filter (fun video => negb (m_id video =? videoId)%string) videos.

End VideoManager.

(** ** Vocabulary of the statements *)

(** What [n >= 1] playthroughs leave behind, as the code computes it. *)
Record Played (n : nat) (last : Date) (v : VideoFile) : Prop := {
  played_first : v_firstPlayDate v <> None;
  played_count : v_reviewCount v = n;
  played_status :
    v_status v = if (n <? 5)%nat then StLearning else StCompleted;
  played_next :
    v_nextReviewDate v =
      if (n =? 1)%nat then Some (midnight (addDays last (interval 0)))
      else if (n <? 5)%nat then Some (addDays last (interval (n - 1)))
      else None
}.

(** How many items of a session name the video [videoId]. *)
Definition occurrences (videoId : string) (items : list PlaylistItem) : nat :=
  List.length (filter (fun item => (i_videoId item =? videoId)%string) items).

(** A video that was never played has [reviewCount] 0, as [addVideos]
    makes it. *)
Definition Counted (v : VideoFile) : Prop :=
  v_firstPlayDate v = None -> v_reviewCount v = 0%nat.

(** Nothing is stored under [s]. *)
Definition unknownSession (s : string) (st : State) : Prop :=
  forall p, In p (playlists st) -> p_id p <> s.

(** [a] is due no later than [b]. *)
Definition dueBefore (a b : VideoFile) : Prop :=
  exists x y, v_nextReviewDate a = Some x /\ v_nextReviewDate b = Some y /\
              x <= y.

(** The video has a [nextReviewDate]. *)
Definition dated (v : VideoFile) : Prop := v_nextReviewDate v <> None.

(** The conditions under which a video is due for review at [now]. *)
Definition dueAt (now : Date) (st : State) (v : VideoFile) : Prop :=
  (exists next, v_nextReviewDate v = Some next /\
                midnight next <= midnight now) /\
  v_status v <> StCompleted /\
  (exists c, In c (collections st) /\ c_id c = v_collectionId v /\
             c_isActive c = true).

(** The position in [REVIEW_INTERVALS] the playthrough of [v] reads. *)
Definition intervalIndex (v : VideoFile) : nat :=
  match v_firstPlayDate v with
  | None => 0
  | Some _ => v_reviewCount v
  end.

(** The videos [getTodayNewVideos] chooses from. *)
Definition newCandidates (st : State) : list VideoFile :=
  filter isNew (activeVideos st).

(** How many of the videos [vs] belong to collection [c]. *)
Definition countIn (c : string) (vs : list VideoFile) : nat :=
  List.length (filter (fun v => (v_collectionId v =? c)%string) vs).

(** Every collection's [totalVideos] is the number of stored videos that
    belong to it. *)
Definition totalsMatch (st : State) : Prop :=
  Forall (fun k => c_totalVideos k = countIn (c_id k) (videos st))
         (collections st).

(** Every item of every stored playlist names a stored video. *)
Definition Resolved (st : State) : Prop :=
  forall p item, In p (playlists st) -> In item (p_items p) ->
                 getVideoById (i_videoId item) st <> None.

(** For every day there is at most one open "new" playlist. *)
Definition atMostOneOpenNew (st : State) : Prop :=
  forall day, (List.length (filter (isOpenNewOn day) (playlists st)) <= 1)%nat.

(** The cursor stands on an item of a playlist of [len] items. *)
Definition onItem (len : nat) (c : Player.Cursor) : Prop :=
  0 <= Player.currentIndex c < Z.of_nat len.

(** What the scheduler reads of a collection. *)
Definition activity (c : Collection) : string * bool := (c_id c, c_isActive c).

(** ** Sample data *)

Module Sample.

(** Ten o'clock in the morning of day [d]. *)
Definition at10 (d : Z) : Date := addDays 36000000 d.

(** A clip as [addVideos] ingests it into collection ["c1"]. *)
Definition clipOf (id : string) : VideoFile :=
  newVideo id "clip" "blob:clip" (at10 0) "c1" 0.

Definition clip : VideoFile := clipOf "v1".

Definition lessons : Collection :=
  {| c_id := "c1"; c_name := "lessons"; c_description := None;
     c_dateCreated := at10 0; c_isActive := true;
     c_totalVideos := 2; c_completedVideos := 0; c_color := "#3B82F6" |}.

Definition newItem (videoId : string) : PlaylistItem :=
  {| i_videoId := videoId; i_reviewType := PtNew; i_reviewNumber := 1;
     i_daysSinceFirstPlay := None; i_isRecommendedForVideo := None |}.

(** The "new" session ["s1"] of day 0 over the clips [ids]. *)
Definition session (ids : list string) (lastPlayedIndex : nat)
    (isCompleted : bool) : DailyPlaylist :=
  {| p_id := "s1"; p_date := at10 0; p_items := map newItem ids;
     p_isCompleted := isCompleted; p_lastPlayedIndex := lastPlayedIndex;
     p_isExtraSession := false; p_playlistType := PtNew |}.

(** Two fresh clips and the session over both. *)
Definition store (lastPlayedIndex : nat) (isCompleted : bool) : State :=
  {| videos := [clipOf "v1"; clipOf "v2"];
     playlists := [session ["v1"; "v2"] lastPlayedIndex isCompleted];
     collections := [lessons] |}.

(** The collection with no clip and no session yet. *)
Definition bare : State :=
  {| videos := []; playlists := []; collections := [lessons] |}.

(** The clip after five playthroughs. *)
Definition mastered : VideoFile :=
  playedAt [at10 0; at10 1; at10 5; at10 12; at10 27] clip.

End Sample.

(** * Properties *)

(** ** Dates: arithmetic facts *)

Section ClockFacts.

Lemma MS_PER_DAY_pos : 0 < MS_PER_DAY.
Proof. reflexivity. Qed.

Lemma midnight_le (d : Date) : midnight d <= d.
Proof.
  unfold midnight.
  pose proof (Z.mod_pos_bound d MS_PER_DAY MS_PER_DAY_pos). lia.
Qed.

Lemma midnight_idem (d : Date) : midnight (midnight d) = midnight d.
Proof.
  unfold midnight.
  assert (H : (d - d mod MS_PER_DAY) mod MS_PER_DAY = 0).
  { rewrite Zminus_mod_idemp_r, Z.sub_diag. reflexivity. }
  rewrite H. lia.
Qed.

Lemma midnight_addDays (d : Date) (n : Z) :
  midnight (addDays d n) = addDays (midnight d) n.
Proof.
  unfold midnight, addDays. rewrite Z.mod_add by discriminate. lia.
Qed.

End ClockFacts.

(** ** The review-state transition of one video *)

Section Transition.

Lemma VideoStatus_eqb_eq (a b : VideoStatus) :
  VideoStatus_eqb a b = true <-> a = b.
Proof. destruct a, b; simpl; split; congruence. Qed.

Lemma playedVideo_id now v : v_id (playedVideo now v) = v_id v.
Proof.
  unfold playedVideo. destruct (v_firstPlayDate v); [|reflexivity].
  destruct (_ <? _)%nat; reflexivity.
Qed.

Lemma playedVideo_collectionId now v :
  v_collectionId (playedVideo now v) = v_collectionId v.
Proof.
  unfold playedVideo. destruct (v_firstPlayDate v); [|reflexivity].
  destruct (_ <? _)%nat; reflexivity.
Qed.

Lemma Played_first_play now v :
  v_firstPlayDate v = None -> Played 1 now (playedVideo now v).
Proof.
  intros H. unfold playedVideo. rewrite H.
  split; simpl; try reflexivity; discriminate.
Qed.

Lemma Played_next_play n last now v :
  (1 <= n)%nat -> Played n last v -> Played (S n) now (playedVideo now v).
Proof.
  intros Hn [Hf Hc Hs Hd]. unfold playedVideo.
  destruct (v_firstPlayDate v) as [first|]; [|congruence].
  rewrite Hc. replace (n + 1)%nat with (S n) by lia.
  assert (H1 : (S n =? 1)%nat = false) by (apply Nat.eqb_neq; lia).
  destruct (S n <? 5)%nat eqn:E; split; cbn [v_firstPlayDate v_reviewCount
    v_status v_nextReviewDate]; rewrite ?H1, ?E; try reflexivity;
    discriminate.
Qed.

(** A freshly ingested video, whatever [addVideos] was given. *)
Variables (id name url : string) (added : Date) (coll : string) (idx : nat).

Lemma last_app_one {A} (l : list A) (x d : A) : last (l ++ [x]) d = x.
Proof. apply last_last. Qed.

(** After any non-empty run of playthroughs of a freshly ingested video,
    the video is in the state [Played] describes for the number of
    playthroughs and the instant of the last one. *)
Lemma playedAt_Played times :
  times <> [] ->
  Played (List.length times) (last times 0)
         (playedAt times (newVideo id name url added coll idx)).
Proof.
  induction times as [|t times IH] using rev_ind; [congruence|]. intros _.
  unfold playedAt. rewrite fold_left_app, length_app, last_app_one. simpl.
  destruct times as [|t0 times'].
  - simpl. apply Played_first_play. reflexivity.
  - replace (List.length (t0 :: times') + 1)%nat
      with (S (List.length (t0 :: times'))) by lia.
    apply Played_next_play with (last := last (t0 :: times') 0).
    + simpl. lia.
    + apply IH. discriminate.
Qed.

(** The states the code reaches: [completed] exactly from the fifth
    playthrough on, with [reviewCount] the number of playthroughs. *)
Lemma playedAt_status times :
  let v := playedAt times (newVideo id name url added coll idx) in
  v_reviewCount v = List.length times /\
  (v_status v = StCompleted <-> (5 <= v_reviewCount v)%nat).
Proof.
  destruct times as [|t times].
  - simpl. split; [reflexivity|]. split; [discriminate|lia].
  - pose proof (playedAt_Played (t :: times))
      as [Hf Hc Hs Hd]; [discriminate|].
    cbv zeta. rewrite Hc, Hs. split; [reflexivity|].
    destruct (_ <? 5)%nat eqn:E.
    + apply Nat.ltb_lt in E. split; [discriminate|lia].
    + apply Nat.ltb_ge in E. split; [intros _; exact E|reflexivity].
Qed.

End Transition.

(** A run of [markVideoAsPlayed] on one id plays the videos of that id
    and leaves the others as they are. *)
Lemma markedAt_videos times videoId st :
  videos (markedAt times videoId st) =
  map (fun v => if (v_id v =? videoId)%string then playedAt times v else v)
      (videos st).
Proof.
  revert st. induction times as [|t times IH]; intros st.
  - simpl. rewrite <- (map_id (videos st)) at 1. apply map_ext.
    intros v. now destruct (_ =? _)%string.
  - unfold markedAt in *. simpl fold_left. rewrite IH.
    unfold markVideoAsPlayed at 1. simpl videos. rewrite map_map.
    apply map_ext. intros v.
    destruct (v_id v =? videoId)%string eqn:E.
    + now rewrite playedVideo_id, E.
    + now rewrite E.
Qed.

Lemma markedAt_nth times videoId st i v :
  nth_error (videos st) i = Some v ->
  v_id v = videoId ->
  nth_error (videos (markedAt times videoId st)) i = Some (playedAt times v).
Proof.
  intros H Hid. rewrite markedAt_videos, nth_error_map, H. simpl.
  now rewrite Hid, String.eqb_refl.
Qed.

(** ** C1, C2, C7: the transition *)

(** C1 (the code at the input where it departs from the claim): a freshly
    ingested video of the store is still [learning] after four calls of
    [markVideoAsPlayed] and is [completed] by the fifth, whatever the
    instants of the calls; its [reviewCount] is then 5, below the 6
    entries of [REVIEW_INTERVALS]. *)
Theorem C1_completed_on_fifth_playthrough :
  forall id name url added coll idx (t1 t2 t3 t4 t5 : Date) st i,
    nth_error (videos st) i = Some (newVideo id name url added coll idx) ->
    (exists v4,
       nth_error (videos (markedAt [t1; t2; t3; t4] id st)) i = Some v4 /\
       v_status v4 = StLearning /\ v_reviewCount v4 = 4%nat) /\
    (exists v5,
       nth_error (videos (markedAt [t1; t2; t3; t4; t5] id st)) i = Some v5 /\
       v_status v5 = StCompleted /\ v_reviewCount v5 = 5%nat /\
       (v_reviewCount v5 < List.length REVIEW_INTERVALS)%nat).
Proof.
  intros id name url added coll idx t1 t2 t3 t4 t5 st i Hnth.
  destruct (playedAt_Played id name url added coll idx [t1; t2; t3; t4])
    as [_ Hc4 Hs4 _]; [discriminate|].
  destruct (playedAt_Played id name url added coll idx [t1; t2; t3; t4; t5])
    as [_ Hc5 Hs5 _]; [discriminate|].
  split; eexists; (split; [apply (markedAt_nth _ _ _ _ _ Hnth); reflexivity|]).
  - now rewrite Hs4, Hc4.
  - rewrite Hs5, Hc5. simpl. repeat split. lia.
Qed.

Lemma C1_completed_on_fifth_playthrough_witness :
  let day d := Sample.at10 d in
  (exists v4,
     nth_error (videos (markedAt [day 0; day 1; day 5; day 12] "v1"
                                 (Sample.store 0 false))) 0 = Some v4 /\
     v_status v4 = StLearning /\ v_reviewCount v4 = 4%nat) /\
  (exists v5,
     nth_error (videos (markedAt [day 0; day 1; day 5; day 12; day 27] "v1"
                                 (Sample.store 0 false))) 0 = Some v5 /\
     v_status v5 = StCompleted /\ v_reviewCount v5 = 5%nat /\
     (v_reviewCount v5 < List.length REVIEW_INTERVALS)%nat).
Proof.
  exact (C1_completed_on_fifth_playthrough
           "v1" "clip" "blob:clip" (Sample.at10 0) "c1" 0%nat
           (Sample.at10 0) (Sample.at10 1) (Sample.at10 5) (Sample.at10 12)
           (Sample.at10 27) (Sample.store 0 false) 0%nat eq_refl).
Defined.

(** The dates the code schedules: after the first playthrough the next
    midnight; after the second to fourth the instant [now] moved by the
    interval, with its time of day; from the fifth on, none. *)
Lemma nextReviewDate_after id name url added coll idx times now :
  let k := S (List.length times) in
  v_nextReviewDate
    (playedAt (times ++ [now]) (newVideo id name url added coll idx)) =
  if (k =? 1)%nat then Some (midnight (addDays now (interval 0)))
  else if (k <? 5)%nat then Some (addDays now (interval (k - 1)))
  else None.
Proof.
  intros k.
  destruct (playedAt_Played id name url added coll idx (times ++ [now]))
    as [_ _ _ Hd]; [now destruct times|].
  rewrite Hd, length_app, last_app_one. simpl List.length.
  replace (List.length times + 1)%nat with k by (subst k; lia).
  reflexivity.
Qed.

(** A date moved by whole days is a midnight only if it was one. *)
Lemma addDays_is_midnight d n :
  addDays d n = midnight (addDays d n) <-> d mod MS_PER_DAY = 0.
Proof.
  rewrite midnight_addDays. unfold addDays, midnight. lia.
Qed.

(** C2 (the code at the input where it departs from the claim): clip
    ["v1"], first marked as played at 10:00 on day 0 and marked again at
    10:00 on day 1, gets [nextReviewDate] 10:00 on day 5, not the midnight
    that opens day 5; and its fifth playthrough leaves it no
    [nextReviewDate] at all. *)
Theorem C2_review_date_keeps_time_of_day :
  let day d := Sample.at10 d in
  let now := day 1 in
  let second := markedAt [day 0; now] "v1" (Sample.store 0 false) in
  let fifth :=
    markedAt [day 0; day 1; day 5; day 12; day 27] "v1" (Sample.store 0 false) in
  nth_error (map v_nextReviewDate (videos second)) 0
    = Some (Some (addDays now (interval 1))) /\
  addDays now (interval 1) <> midnight (addDays now (interval 1)) /\
  midnight (addDays now (interval 1)) = addDays 0 5 /\
  nth_error (map v_nextReviewDate (videos fifth)) 0 = Some None.
Proof.
  cbv zeta. repeat split; try reflexivity. vm_compute. discriminate.
Qed.

Lemma playedAt_id times v : v_id (playedAt times v) = v_id v.
Proof.
  revert v. induction times as [|t times IH]; intros v; [reflexivity|].
  simpl. unfold playedAt in IH. rewrite IH. apply playedVideo_id.
Qed.

Lemma markVideoAsPlayed_nth now videoId st i v :
  nth_error (videos st) i = Some v ->
  nth_error (videos (markVideoAsPlayed now videoId st)) i =
    Some (if (v_id v =? videoId)%string then playedVideo now v else v).
Proof.
  intros H. unfold markVideoAsPlayed. simpl.
  rewrite nth_error_map, H. reflexivity.
Qed.

(** A video that playthroughs have completed stays completed, without a
    date, and still counts the next playthrough. *)
Lemma Played_completed n last now v :
  Played n last v -> v_status v = StCompleted ->
  v_status (playedVideo now v) = StCompleted /\
  v_nextReviewDate v = None /\ v_nextReviewDate (playedVideo now v) = None /\
  v_reviewCount (playedVideo now v) = S (v_reviewCount v).
Proof.
  intros [Hf Hc Hs Hd] Hst. rewrite Hs in Hst.
  destruct (n <? 5)%nat eqn:E; [discriminate|].
  apply Nat.ltb_ge in E.
  assert (E1 : (n =? 1)%nat = false) by (apply Nat.eqb_neq; lia).
  rewrite E1 in Hd. unfold playedVideo.
  destruct (v_firstPlayDate v); [|congruence].
  rewrite Hc. replace (n + 1 <? 5)%nat with false
    by (symmetry; apply Nat.ltb_ge; lia).
  simpl. repeat split; try assumption. lia.
Qed.

(** C7 (counterexample): the clip is [completed] after five playthroughs,
    and one more [markVideoAsPlayed] moves its [reviewCount] from 5 to 6. *)
Theorem C7_completed_still_counts :
  let st := {| videos := [Sample.mastered]; playlists := [];
               collections := [Sample.lessons] |} in
  map v_status (videos st) = [StCompleted] /\
  map v_reviewCount (videos st) = [5%nat] /\
  map v_reviewCount (videos (markVideoAsPlayed (Sample.at10 30) "v1" st))
    = [6%nat].
Proof. vm_compute. repeat split. Qed.

(** C7 (amended): for a video that ingestion and playthroughs have brought
    to [completed], one more [markVideoAsPlayed] leaves [status] at
    [completed] and [nextReviewDate] absent, and adds 1 to [reviewCount]. *)
Theorem C7_completed_keeps_status_and_date :
  forall id name url added coll idx times now st i,
    let v := playedAt times (newVideo id name url added coll idx) in
    nth_error (videos st) i = Some v ->
    v_status v = StCompleted ->
    exists v',
      nth_error (videos (markVideoAsPlayed now id st)) i = Some v' /\
      v_status v' = StCompleted /\
      v_nextReviewDate v = None /\ v_nextReviewDate v' = None /\
      v_reviewCount v' = S (v_reviewCount v).
Proof.
  intros id name url added coll idx times now st i v Hnth Hst.
  exists (playedVideo now v). split.
  - rewrite (markVideoAsPlayed_nth _ _ _ _ _ Hnth).
    subst v. rewrite playedAt_id. simpl. now rewrite String.eqb_refl.
  - destruct times as [|t times]; [subst v; discriminate Hst|].
    eapply Played_completed; [|exact Hst].
    apply playedAt_Played. discriminate.
Qed.

Lemma C7_completed_keeps_status_and_date_witness :
  let st := {| videos := [Sample.mastered]; playlists := [];
               collections := [Sample.lessons] |} in
  exists v',
    nth_error (videos (markVideoAsPlayed (Sample.at10 30) "v1" st)) 0
      = Some v' /\
    v_status v' = StCompleted /\
    v_nextReviewDate Sample.mastered = None /\ v_nextReviewDate v' = None /\
    v_reviewCount v' = S (v_reviewCount Sample.mastered).
Proof.
  exact (C7_completed_keeps_status_and_date
           "v1" "clip" "blob:clip" (Sample.at10 0) "c1" 0%nat
           [Sample.at10 0; Sample.at10 1; Sample.at10 5; Sample.at10 12;
            Sample.at10 27]
           (Sample.at10 30)
           {| videos := [Sample.mastered]; playlists := [];
              collections := [Sample.lessons] |}
           0%nat eq_refl eq_refl).
Defined.

(** ** C3, C5, C9: updatePlaylistProgress *)

Section Progress.

Lemma playedVideo_Counted now v : Counted (playedVideo now v).
Proof.
  unfold Counted, playedVideo. destruct (v_firstPlayDate v).
  - destruct (_ <? _)%nat; discriminate.
  - discriminate.
Qed.

Lemma playedVideo_reviewCount now v :
  Counted v -> v_reviewCount (playedVideo now v) = S (v_reviewCount v).
Proof.
  unfold Counted, playedVideo. intros H.
  destruct (v_firstPlayDate v).
  - destruct (_ <? _)%nat; simpl; lia.
  - simpl. now rewrite H.
Qed.

Lemma iter_played_id n now v :
  v_id (Nat.iter n (playedVideo now) v) = v_id v.
Proof.
  induction n as [|n IH]; [reflexivity|].
  simpl. now rewrite playedVideo_id.
Qed.

Lemma iter_played_Counted n now v :
  Counted v -> Counted (Nat.iter n (playedVideo now) v).
Proof.
  intros H. destruct n; [exact H|]. simpl. apply playedVideo_Counted.
Qed.

Lemma iter_played_reviewCount n now v :
  Counted v ->
  v_reviewCount (Nat.iter n (playedVideo now) v) = (v_reviewCount v + n)%nat.
Proof.
  intros H. induction n as [|n IH]; [simpl; lia|].
  simpl. rewrite playedVideo_reviewCount by now apply iter_played_Counted.
  lia.
Qed.

Lemma iter_succ_r {A} (f : A -> A) n x :
  Nat.iter n f (f x) = Nat.iter (S n) f x.
Proof. induction n as [|n IH]; [reflexivity|]. simpl. now rewrite IH. Qed.

Lemma markItemsAsPlayed_playlists now items st :
  playlists (markItemsAsPlayed now items st) = playlists st.
Proof.
  revert st. induction items as [|item items IH]; intros st; [reflexivity|].
  unfold markItemsAsPlayed in *. simpl. now rewrite IH.
Qed.

(** One completion plays every video once per item that names it. *)
Lemma markItemsAsPlayed_videos now items st :
  videos (markItemsAsPlayed now items st) =
  map (fun v => Nat.iter (occurrences (v_id v) items) (playedVideo now) v)
      (videos st).
Proof.
  revert st. induction items as [|item items IH]; intros st.
  - simpl. now rewrite map_id.
  - unfold markItemsAsPlayed in *. simpl fold_left. rewrite IH.
    unfold markVideoAsPlayed at 1. simpl videos. rewrite map_map.
    apply map_ext. intros v. unfold occurrences. simpl filter.
    destruct (v_id v =? i_videoId item)%string eqn:E.
    + rewrite playedVideo_id.
      rewrite String.eqb_sym, E. simpl List.length. apply iter_succ_r.
    + now rewrite String.eqb_sym, E.
Qed.

Lemma setProgress_id s i c p : p_id (setProgress s i c p) = p_id p.
Proof. unfold setProgress. now destruct (_ =? _)%string. Qed.

Lemma setProgress_items s i c p : p_items (setProgress s i c p) = p_items p.
Proof. unfold setProgress. now destruct (_ =? _)%string. Qed.

Lemma find_setProgress s i c l :
  find (fun p => (p_id p =? s)%string) (map (setProgress s i c) l) =
  option_map (setProgress s i c) (find (fun p => (p_id p =? s)%string) l).
Proof.
  induction l as [|p l IH]; [reflexivity|].
  simpl. rewrite setProgress_id.
  destruct (p_id p =? s)%string; [reflexivity|exact IH].
Qed.

Lemma unknown_find s st :
  unknownSession s st ->
  find (fun p => (p_id p =? s)%string) (playlists st) = None.
Proof.
  intros H. destruct (find _ _) as [p|] eqn:E; [|reflexivity].
  apply find_some in E. destruct E as [Hin Hid].
  apply String.eqb_eq in Hid. now apply H in Hin.
Qed.

Lemma setProgress_other s i c p : p_id p <> s -> setProgress s i c p = p.
Proof.
  intros H. unfold setProgress.
  destruct (p_id p =? s)%string eqn:E; [|reflexivity].
  apply String.eqb_eq in E. contradiction.
Qed.

Lemma setProgress_same s p :
  setProgress s (p_lastPlayedIndex p) (p_isCompleted p) p = p.
Proof.
  unfold setProgress. destruct (_ =? _)%string; [|reflexivity].
  now destruct p.
Qed.

Lemma State_eta st :
  {| videos := videos st; playlists := playlists st;
     collections := collections st |} = st.
Proof. now destruct st. Qed.

(** A completion of a stored session: the record is updated and every
    item is marked as played. *)
Lemma complete_videos now s index st p :
  find (fun q => (p_id q =? s)%string) (playlists st) = Some p ->
  videos (updatePlaylistProgress now s index true st) =
  map (fun v => Nat.iter (occurrences (v_id v) (p_items p))
                         (playedVideo now) v) (videos st).
Proof.
  intros H. unfold updatePlaylistProgress. rewrite H.
  now rewrite markItemsAsPlayed_videos.
Qed.

Lemma complete_playlists now s index st p :
  find (fun q => (p_id q =? s)%string) (playlists st) = Some p ->
  playlists (updatePlaylistProgress now s index true st) =
  map (setProgress s index true) (playlists st).
Proof.
  intros H. unfold updatePlaylistProgress. rewrite H.
  now rewrite markItemsAsPlayed_playlists.
Qed.

End Progress.

(** The comparison with the index lives in the caller: the callback of
    [App] does not call the hook when the index is the one its copy of the
    playlist holds. *)
Lemma handleProgressUpdate_same_index current st :
  handleProgressUpdate (Some current) (p_lastPlayedIndex current) st = st.
Proof.
  unfold handleProgressUpdate. now rewrite Nat.eqb_refl.
Qed.

(** C3 (counterexample): completing session ["s1"] twice in a row moves
    the [reviewCount] of both of its clips from 0 to 2. *)
Theorem C3_double_completion_counts_twice :
  let st := Sample.store 0 false in
  let once := updatePlaylistProgress (Sample.at10 0) "s1" 2 true st in
  let twice := updatePlaylistProgress (Sample.at10 0) "s1" 2 true once in
  map v_reviewCount (videos st) = [0; 0]%nat /\
  map v_reviewCount (videos once) = [1; 1]%nat /\
  map p_isCompleted (playlists once) = [true] /\
  map v_reviewCount (videos twice) = [2; 2]%nat.
Proof. vm_compute. repeat split. Qed.

(** C3 (amended): when [s] names a stored session, every completion runs
    the transition once per item, whether or not the session is already
    completed: one completion adds to the [reviewCount] of each video the
    number of items that name it, and two completions in a row add twice
    that number. *)
Theorem C3_each_completion_advances :
  forall now1 now2 s index1 index2 st p,
    find (fun q => (p_id q =? s)%string) (playlists st) = Some p ->
    (forall v, In v (videos st) -> Counted v) ->
    let once := updatePlaylistProgress now1 s index1 true st in
    let twice := updatePlaylistProgress now2 s index2 true once in
    map v_reviewCount (videos once) =
      map (fun v => v_reviewCount v + occurrences (v_id v) (p_items p))%nat
          (videos st) /\
    map v_reviewCount (videos twice) =
      map (fun v => v_reviewCount v + 2 * occurrences (v_id v) (p_items p))%nat
          (videos st).
Proof.
  intros now1 now2 s index1 index2 st p Hfind Hcnt once twice.
  assert (Hv1 : videos once =
                map (fun v => Nat.iter (occurrences (v_id v) (p_items p))
                                       (playedVideo now1) v) (videos st)).
  { subst once. now rewrite (complete_videos _ _ _ _ _ Hfind). }
  assert (Hfind1 : find (fun q => (p_id q =? s)%string) (playlists once)
                   = Some (setProgress s index1 true p)).
  { subst once. rewrite (complete_playlists _ _ _ _ _ Hfind).
    now rewrite find_setProgress, Hfind. }
  assert (Hv2 : videos twice =
                map (fun v => Nat.iter (occurrences (v_id v) (p_items p))
                                       (playedVideo now2) v) (videos once)).
  { subst twice. rewrite (complete_videos _ _ _ _ _ Hfind1).
    now rewrite setProgress_items. }
  split.
  - rewrite Hv1, map_map. apply map_ext_in. intros v Hin.
    apply iter_played_reviewCount. now apply Hcnt.
  - rewrite Hv2, Hv1, !map_map. apply map_ext_in. intros v Hin.
    rewrite iter_played_id.
    rewrite iter_played_reviewCount
      by (apply iter_played_Counted; now apply Hcnt).
    rewrite iter_played_reviewCount by now apply Hcnt. lia.
Qed.

Lemma Sample_store_Counted lastPlayedIndex isCompleted :
  forall v, In v (videos (Sample.store lastPlayedIndex isCompleted)) ->
            Counted v.
Proof.
  intros v [<-|[<-|[]]]; intros _; reflexivity.
Qed.

Lemma C3_each_completion_advances_witness :
  let st := Sample.store 0 false in
  let once := updatePlaylistProgress (Sample.at10 0) "s1" 2 true st in
  let twice := updatePlaylistProgress (Sample.at10 1) "s1" 2 true once in
  map v_reviewCount (videos once) =
    map (fun v => v_reviewCount v
                  + occurrences (v_id v) (map Sample.newItem ["v1"; "v2"]))%nat
        (videos st) /\
  map v_reviewCount (videos twice) =
    map (fun v => v_reviewCount v
                  + 2 * occurrences (v_id v) (map Sample.newItem ["v1"; "v2"]))%nat
        (videos st).
Proof.
  exact (C3_each_completion_advances
           (Sample.at10 0) (Sample.at10 1) "s1" 2%nat 2%nat
           (Sample.store 0 false) (Sample.session ["v1"; "v2"] 0 false)
           eq_refl (Sample_store_Counted 0 false)).
Defined.

(** C5 (counterexample): [updatePlaylistProgress] without completion moves
    the cursor of the open session ["s1"] back from 1 to 0; and called on
    the completed session with the index it already stores, it changes the
    state by re-opening the session. *)
Theorem C5_advance_moves_cursor_back :
  let now := Sample.at10 0 in
  map p_lastPlayedIndex (playlists (Sample.store 1 false)) = [1%nat] /\
  map p_lastPlayedIndex
      (playlists (updatePlaylistProgress now "s1" 0 false (Sample.store 1 false)))
    = [0%nat] /\
  map p_isCompleted (playlists (Sample.store 2 true)) = [true] /\
  map p_isCompleted
      (playlists (updatePlaylistProgress now "s1" 2 false (Sample.store 2 true)))
    = [false] /\
  updatePlaylistProgress now "s1" 2 false (Sample.store 2 true)
    <> Sample.store 2 true.
Proof. vm_compute. repeat split. discriminate. Qed.

(** C5 (amended): [updatePlaylistProgress] without completion leaves
    videos and collections alone and stores the index it is given, lower
    or not, in the session's record together with [isCompleted = false];
    when every record stored under the id is open and already holds that
    index, the state after the call equals the state before. *)
Theorem C5_advance_stores_index :
  forall now s index st i p,
    nth_error (playlists st) i = Some p ->
    p_id p = s ->
    let st' := updatePlaylistProgress now s index false st in
    videos st' = videos st /\
    collections st' = collections st /\
    nth_error (playlists st') i =
      Some {| p_id := p_id p; p_date := p_date p; p_items := p_items p;
              p_isCompleted := false; p_lastPlayedIndex := index;
              p_isExtraSession := p_isExtraSession p;
              p_playlistType := p_playlistType p |} /\
    ((forall q, In q (playlists st) -> p_id q = s ->
                p_lastPlayedIndex q = index /\ p_isCompleted q = false) ->
     st' = st).
Proof.
  intros now s index st i p Hnth Hid st'. subst st'.
  unfold updatePlaylistProgress. simpl. repeat split.
  - rewrite nth_error_map, Hnth. simpl. unfold setProgress.
    now rewrite Hid, String.eqb_refl.
  - intros Hsame.
    replace (map (setProgress s index false) (playlists st))
      with (playlists st); [apply State_eta|].
    rewrite <- (map_id (playlists st)) at 1. apply map_ext_in.
    intros q Hq. destruct (String.eqb_spec (p_id q) s) as [E|E].
    + destruct (Hsame q Hq E) as [<- <-]. symmetry. apply setProgress_same.
    + symmetry. now apply setProgress_other.
Qed.

Lemma C5_advance_stores_index_witness :
  let st := Sample.store 1 false in
  let st' := updatePlaylistProgress (Sample.at10 0) "s1" 1 false st in
  videos st' = videos st /\
  collections st' = collections st /\
  nth_error (playlists st') 0 = Some (Sample.session ["v1"; "v2"] 1 false) /\
  st' = st.
Proof.
  destruct (C5_advance_stores_index (Sample.at10 0) "s1" 1%nat
              (Sample.store 1 false) 0%nat
              (Sample.session ["v1"; "v2"] 1 false) eq_refl eq_refl)
    as (Hv & Hc & Hp & Hsame).
  split; [exact Hv|]. split; [exact Hc|]. split; [exact Hp|].
  apply Hsame. intros q [<-|[]] _. split; reflexivity.
Defined.

(** C9 (counterexample): a call with an id that names no stored session
    returns normally, for an advance and for a completion, and the state
    after it is the state before: no condition is signalled. *)
Theorem C9_unknown_session_returns_silently :
  let st := Sample.store 0 false in
  callUpdatePlaylistProgress (Sample.at10 0) "no-such-session" 1 false st
    = Returns st /\
  callUpdatePlaylistProgress (Sample.at10 0) "no-such-session" 2 true st
    = Returns st.
Proof. vm_compute. split; reflexivity. Qed.

(** C9 (amended): for an id that names no stored session, a call of
    [updatePlaylistProgress], with or without completion, returns normally
    and leaves the whole state as it was. *)
Theorem C9_unknown_session_is_noop :
  forall now s index isCompleted st,
    unknownSession s st ->
    callUpdatePlaylistProgress now s index isCompleted st = Returns st.
Proof.
  intros now s index isCompleted st H.
  unfold callUpdatePlaylistProgress, updatePlaylistProgress. f_equal.
  rewrite (unknown_find _ _ H).
  replace (map (setProgress s index isCompleted) (playlists st))
    with (playlists st).
  - rewrite State_eta. now destruct isCompleted.
  - rewrite <- (map_id (playlists st)) at 1. apply map_ext_in.
    intros q Hq. symmetry. apply setProgress_other. now apply H.
Qed.

Lemma C9_unknown_session_is_noop_witness :
  callUpdatePlaylistProgress (Sample.at10 0) "no-such-session" 2 true
    (Sample.store 0 false) = Returns (Sample.store 0 false).
Proof.
  apply (C9_unknown_session_is_noop (Sample.at10 0) "no-such-session" 2%nat
           true (Sample.store 0 false)).
  intros p [<-|[]]. vm_compute. discriminate.
Defined.

(** ** C4: createTodayPlaylist *)

Section Sessions.

Lemma isOpenNewOn_created extra now uuid items today :
  midnight now = today ->
  isOpenNewOn today
    {| p_id := uuid; p_date := now; p_items := items;
       p_isCompleted := false; p_lastPlayedIndex := 0%nat;
       p_isExtraSession := extra; p_playlistType := PtNew |} = true.
Proof. intros H. unfold isOpenNewOn. simpl. now apply Z.eqb_eq. Qed.

(** An open "new" session of today is handed back as it is, whatever its
    extra flag and whatever the flag asked for. *)
Lemma createTodayPlaylist_reuses extra now uuid st p :
  find (isOpenNewOn (midnight now)) (playlists st) = Some p ->
  createTodayPlaylist PtNew extra now uuid st = (p, st).
Proof. intros H. unfold createTodayPlaylist. now rewrite H. Qed.

End Sessions.

(** C4 (counterexample): two requests for a "review" session at the same
    instant, nothing completed in between, store two playlists and return
    two different ids (the two values [generateUUID] produced). *)
Theorem C4_review_session_created_twice :
  let now := Sample.at10 0 in
  let first := createTodayPlaylist PtReview false now "uuid-1" Sample.bare in
  let second := createTodayPlaylist PtReview false now "uuid-2" (snd first) in
  p_id (fst first) = "uuid-1" /\
  p_id (fst second) = "uuid-2" /\
  p_id (fst first) <> p_id (fst second) /\
  map p_id (playlists (snd second)) = ["uuid-2"; "uuid-1"].
Proof. vm_compute. repeat split. discriminate. Qed.

(** C4 (amended): for the type "new", two requests on the same day with
    nothing in between return the same playlist, hence the same id, and
    the second stores nothing, whatever the two extra flags are: the
    lookup is on (today, "new", not completed) and does not read the extra
    flag. For the type "review" there is no lookup: every request stores a
    fresh playlist in front, under the id just generated. *)
Theorem C4_new_session_is_reused :
  forall extra1 extra2 now1 now2 uuid1 uuid2 st,
    midnight now1 = midnight now2 ->
    let first := createTodayPlaylist PtNew extra1 now1 uuid1 st in
    let second := createTodayPlaylist PtNew extra2 now2 uuid2 (snd first) in
    fst second = fst first /\
    p_id (fst second) = p_id (fst first) /\
    snd second = snd first /\
    (forall extra now uuid st0,
       let made := createTodayPlaylist PtReview extra now uuid st0 in
       p_id (fst made) = uuid /\
       playlists (snd made) = fst made :: playlists st0).
Proof.
  intros extra1 extra2 now1 now2 uuid1 uuid2 st Hday first second.
  assert (H : second = first).
  { subst second first.
    destruct (find (isOpenNewOn (midnight now1)) (playlists st)) as [p|] eqn:E.
    - rewrite (createTodayPlaylist_reuses extra1 now1 uuid1 st p E).
      apply createTodayPlaylist_reuses. simpl snd. now rewrite <- Hday.
    - assert (F : exists made,
                 createTodayPlaylist PtNew extra1 now1 uuid1 st =
                 (made, {| videos := videos st;
                           playlists := made :: playlists st;
                           collections := collections st |}) /\
                 isOpenNewOn (midnight now2) made = true).
      { unfold createTodayPlaylist. rewrite E. eexists. split; [reflexivity|].
        now apply isOpenNewOn_created. }
      destruct F as (made & -> & Hopen).
      apply createTodayPlaylist_reuses. simpl. now rewrite Hopen. }
  rewrite H. repeat split.
Qed.

Lemma C4_new_session_is_reused_witness :
  let first :=
    createTodayPlaylist PtNew false (Sample.at10 0) "uuid-1" Sample.bare in
  let second :=
    createTodayPlaylist PtNew true (addDays 72000000 0) "uuid-2" (snd first) in
  midnight (Sample.at10 0) = midnight (addDays 72000000 0) /\
  fst second = fst first /\
  p_id (fst second) = "uuid-1" /\
  snd second = snd first.
Proof.
  split; [reflexivity|].
  destruct (C4_new_session_is_reused false true (Sample.at10 0)
              (addDays 72000000 0) "uuid-1" "uuid-2" Sample.bare eq_refl)
    as (H1 & H2 & H3 & _).
  repeat split; assumption.
Defined.

(** ** C6: getTodayReviews *)

Section Reviews.

Lemma insertSorted_In {A} (cmp : A -> A -> Z) x a l :
  In x (insertSorted cmp a l) <-> x = a \/ In x l.
Proof.
  induction l as [|y l IH]; simpl.
  - intuition.
  - destruct (cmp a y <=? 0); simpl; [intuition|].
    rewrite IH. intuition.
Qed.

Lemma sortBy_In {A} (cmp : A -> A -> Z) x l :
  In x (sortBy cmp l) <-> In x l.
Proof.
  induction l as [|a l IH]; simpl; [reflexivity|].
  rewrite insertSorted_In, IH. intuition.
Qed.

Lemma insertSorted_Permutation {A} (cmp : A -> A -> Z) a l :
  Permutation (a :: l) (insertSorted cmp a l).
Proof.
  induction l as [|y l IH]; simpl; [reflexivity|].
  destruct (cmp a y <=? 0); [reflexivity|].
  rewrite perm_swap. now constructor.
Qed.

Lemma sortBy_Permutation {A} (cmp : A -> A -> Z) l :
  Permutation l (sortBy cmp l).
Proof.
  induction l as [|a l IH]; simpl; [constructor|].
  rewrite <- insertSorted_Permutation. now constructor.
Qed.

Lemma compareReview_le a b :
  dated a -> dated b ->
  (compareReview a b <=? 0) = true <-> dueBefore a b.
Proof.
  unfold dated, compareReview, dueBefore. intros Ha Hb.
  destruct (v_nextReviewDate a) as [x|]; [|congruence].
  destruct (v_nextReviewDate b) as [y|]; [|congruence].
  rewrite Z.leb_le. split.
  - intros H. exists x, y. repeat split. lia.
  - intros (x' & y' & [= <-] & [= <-] & H). lia.
Qed.

Lemma dueBefore_trans a b c : dueBefore a b -> dueBefore b c -> dueBefore a c.
Proof.
  intros (x & y & Hx & Hy & H1) (y' & z & Hy' & Hz & H2).
  rewrite Hy in Hy'. injection Hy' as <-.
  exists x, z. repeat split; try assumption. lia.
Qed.

Lemma insertSorted_sorted a l :
  dated a -> Forall dated l ->
  StronglySorted dueBefore l ->
  StronglySorted dueBefore (insertSorted compareReview a l).
Proof.
  intros Ha Hl Hs. induction Hs as [|y l Hs IH Hy]; simpl.
  - repeat constructor.
  - inversion Hl as [|? ? Hdy Hdl]; subst.
    destruct (compareReview a y <=? 0) eqn:E.
    + apply compareReview_le in E; try assumption.
      constructor; [now constructor|].
      constructor; [exact E|].
      eapply Forall_impl; [|exact Hy]. intros z. now apply dueBefore_trans.
    + constructor; [now apply IH|].
      apply Forall_forall. intros z Hz. apply insertSorted_In in Hz.
      destruct Hz as [->|Hz].
      * assert (Hya : (compareReview a y <=? 0) = false) by exact E.
        unfold compareReview, dated, dueBefore in *.
        destruct (v_nextReviewDate a) as [x|]; [|congruence].
        destruct (v_nextReviewDate y) as [w|]; [|congruence].
        apply Z.leb_gt in Hya. exists w, x. repeat split. lia.
      * rewrite Forall_forall in Hy. now apply Hy.
Qed.

Lemma sortBy_sorted l :
  Forall dated l -> StronglySorted dueBefore (sortBy compareReview l).
Proof.
  induction l as [|a l IH]; intros H; simpl; [constructor|].
  inversion H; subst. apply insertSorted_sorted; try assumption.
  - apply Forall_forall. intros z Hz. apply sortBy_In in Hz.
    rewrite Forall_forall in H3. now apply H3.
  - now apply IH.
Qed.

Lemma isDue_spec today v :
  isDue today v = true <->
  (exists next, v_nextReviewDate v = Some next /\ midnight next <= today) /\
  v_status v <> StCompleted.
Proof.
  unfold isDue. destruct (v_nextReviewDate v) as [next|].
  - destruct (VideoStatus_eqb (v_status v) StCompleted) eqn:E.
    + apply VideoStatus_eqb_eq in E. split; [discriminate|].
      intros [_ H]. contradiction.
    + rewrite Z.leb_le. split.
      * intros H. split; [now exists next|].
        intros C. apply VideoStatus_eqb_eq in C. congruence.
      * intros [(n & [= <-] & H) _]. exact H.
  - split; [discriminate|]. intros [(n & H & _) _]. discriminate.
Qed.

Lemma includes_active st v :
  includes (activeCollectionIds st) (v_collectionId v) = true <->
  exists c, In c (collections st) /\ c_id c = v_collectionId v /\
            c_isActive c = true.
Proof.
  unfold includes, activeCollectionIds. rewrite existsb_exists. split.
  - intros (x & Hin & Heq). apply String.eqb_eq in Heq. subst x.
    apply in_map_iff in Hin. destruct Hin as (c & Hc & Hin).
    apply filter_In in Hin. destruct Hin as [Hin Hact].
    exists c. auto.
  - intros (c & Hin & Hid & Hact). exists (c_id c). split.
    + apply in_map. apply filter_In. auto.
    + rewrite Hid. apply String.eqb_refl.
Qed.

Lemma reviewVideos_In now st v :
  In v (reviewVideos now st) <-> In v (videos st) /\ dueAt now st v.
Proof.
  unfold reviewVideos, activeVideos, dueAt.
  rewrite sortBy_In, !filter_In, isDue_spec, includes_active. tauto.
Qed.

Lemma reviewVideos_sorted now st :
  StronglySorted dueBefore (reviewVideos now st).
Proof.
  unfold reviewVideos. apply sortBy_sorted.
  apply Forall_forall. intros v Hv. apply filter_In in Hv.
  destruct Hv as [_ Hv]. apply isDue_spec in Hv.
  destruct Hv as [(next & Hn & _) _]. unfold dated. congruence.
Qed.

End Reviews.

(** C6: [getTodayReviews] lists a video (through the item that carries its
    id) if and only if the video is in the store with a [nextReviewDate]
    whose midnight is not after today's, a status other than [completed]
    and an active owning collection; and the items follow the videos in
    ascending order of [nextReviewDate]. *)
Theorem C6_due_reviews_selected_and_ordered :
  forall now st,
    (forall item,
       In item (getTodayReviews now st) <->
       exists v, In v (videos st) /\ dueAt now st v /\
                 item = reviewItem now v) /\
    (exists vs,
       getTodayReviews now st = map (reviewItem now) vs /\
       map i_videoId (getTodayReviews now st) = map v_id vs /\
       (forall v, In v vs <-> In v (videos st) /\ dueAt now st v) /\
       Permutation vs (filter (isDue (midnight now)) (activeVideos st)) /\
       StronglySorted dueBefore vs).
Proof.
  intros now st. split.
  - intros item. unfold getTodayReviews. rewrite in_map_iff. split.
    + intros (v & <- & Hv). apply reviewVideos_In in Hv.
      exists v. tauto.
    + intros (v & Hin & Hdue & ->). exists v. split; [reflexivity|].
      apply reviewVideos_In. tauto.
  - exists (reviewVideos now st).
    split; [reflexivity|]. split; [|split; [|split]].
    + unfold getTodayReviews. rewrite map_map. reflexivity.
    + intros v. apply reviewVideos_In.
    + unfold reviewVideos. symmetry. apply sortBy_Permutation.
    + apply reviewVideos_sorted.
Qed.

(** A worked day: of three clips in the active collection, the one due
    tomorrow is left out and the two overdue ones come oldest first. *)
Example getTodayReviews_sample :
  let due d id :=
    {| v_id := id; v_name := "clip"; v_fileUrl := None;
       v_dateAdded := 0; v_reviewCount := 2; v_status := StLearning;
       v_collectionId := "c1"; v_episodeNumber := 1;
       v_firstPlayDate := Some (Sample.at10 0);
       v_nextReviewDate := Some (Sample.at10 d) |} in
  let st := {| videos := [due 6 "a"; due 5 "b"; due 7 "c"; due 3 "d"];
               playlists := []; collections := [Sample.lessons] |} in
  map i_videoId (getTodayReviews (addDays 1000 6) st) = ["d"; "b"; "a"].
Proof. reflexivity. Qed.

(** ** C8: sessions whose videos are gone *)

Section Removal.

Lemma dropItems_id videoId p : p_id (dropItems videoId p) = p_id p.
Proof. reflexivity. Qed.

(** [removeVideoById] edits the items of the stored sessions and never
    drops a session record. *)
Lemma removeVideoById_keeps_sessions fileDeleted videoId st :
  map p_id (playlists (removeVideoById fileDeleted videoId st)) =
  map p_id (playlists st).
Proof.
  unfold removeVideoById, deleteVideo. simpl. rewrite map_map.
  apply map_ext. intros p. apply dropItems_id.
Qed.

Lemma isOpenNewOn_dropItems today videoId p :
  isOpenNewOn today (dropItems videoId p) = isOpenNewOn today p.
Proof. reflexivity. Qed.

(** The session [getLastPlaylist] hands out after a removal is the one it
    handed out before, with the items of the removed video taken out. *)
Lemma getLastPlaylist_after_removal fileDeleted videoId now st :
  getLastPlaylist now (removeVideoById fileDeleted videoId st) =
  option_map (dropItems videoId) (getLastPlaylist now st).
Proof.
  unfold getLastPlaylist, removeVideoById, deleteVideo. simpl.
  induction (playlists st) as [|p l IH]; [reflexivity|].
  simpl. rewrite isOpenNewOn_dropItems.
  destruct (isOpenNewOn (midnight now) p); [reflexivity|exact IH].
Qed.

End Removal.

(** The purge [handleNewLearning] performs when the clips were deleted with
    [deleteVideo], which leaves the items of the session in place: the
    session passes the lookup, none of its items resolves, and the stored
    playlists are rewritten without the open "new" sessions. *)
Example handleNewLearning_purges_after_deleteVideo :
  let st := deleteVideo true "v2"
              (deleteVideo true "v1" (Sample.store 0 false)) in
  validItems st (p_items (Sample.session ["v1"; "v2"] 0 false)) = [] /\
  handleNewLearning st = PurgeAndReload [].
Proof. vm_compute. split; reflexivity. Qed.

(** C8 (the code at the input where it departs from the claim): once both
    clips of the open "new" session ["s1"] have been removed with
    [removeVideoById], the session record is still stored, with no item
    left; [getLastPlaylist] returns it; [handleNewLearning] does not take
    its purge branch, because the emptied session no longer passes its
    lookup; and the next request for a "new" session hands the empty
    session out again. *)
Theorem C8_emptied_session_is_kept :
  let now := Sample.at10 0 in
  let st := removeVideoById true "v2"
              (removeVideoById true "v1" (Sample.store 0 false)) in
  videos st = [] /\
  getLastPlaylist now st = Some (Sample.session [] 0 false) /\
  option_map (fun p => validItems st (p_items p)) (getLastPlaylist now st)
    = Some [] /\
  handleNewLearning st = StartNewPreview /\
  handleStartPlaylist_new false now "uuid-2" st
    = (Sample.session [] 0 false, st).
Proof. vm_compute. repeat split. Qed.

(** ** C10: deleteCollection *)

(** C10: after [deleteCollection c] the store holds exactly the videos of
    the other collections, each as it was and in the order they had, and
    the collection list holds exactly the collections with another id; no
    collection with id [c] is left and the playlists are not touched. *)
Theorem C10_deleteCollection_removes_exactly :
  forall c st,
    let st' := deleteCollection c st in
    (forall v, In v (videos st') <->
               In v (videos st) /\ v_collectionId v <> c) /\
    (forall k, In k (collections st') <->
               In k (collections st) /\ c_id k <> c) /\
    ~ In c (map c_id (collections st')) /\
    ~ In c (map v_collectionId (videos st')) /\
    videos st' =
      filter (fun v => negb (v_collectionId v =? c)%string) (videos st) /\
    playlists st' = playlists st.
Proof.
  intros c st st'. subst st'. unfold deleteCollection. simpl.
  assert (Hneq : forall a : string, negb (a =? c)%string = true <-> a <> c).
  { intros a. rewrite negb_true_iff. split.
    - intros H E. apply String.eqb_eq in E. congruence.
    - intros H. now apply String.eqb_neq. }
  split; [|split; [|split; [|split; [|split]]]].
  - intros v. now rewrite filter_In, Hneq.
  - intros k. now rewrite filter_In, Hneq.
  - intros H. apply in_map_iff in H. destruct H as (k & Hk & Hin).
    apply filter_In in Hin. destruct Hin as [_ Hin].
    apply Hneq in Hin. contradiction.
  - intros H. apply in_map_iff in H. destruct H as (v & Hv & Hin).
    apply filter_In in Hin. destruct Hin as [_ Hin].
    apply Hneq in Hin. contradiction.
  - reflexivity.
  - reflexivity.
Qed.

(** The two clips of collection ["c1"] go, the clip of ["c2"] stays. *)
Example deleteCollection_sample :
  let other := newVideo "v3" "talk" "blob:talk" 0 "c2" 0 in
  let st := {| videos := [Sample.clipOf "v1"; other; Sample.clipOf "v2"];
               playlists := []; collections := [Sample.lessons] |} in
  videos (deleteCollection "c1" st) = [other] /\
  collections (deleteCollection "c1" st) = [].
Proof. split; reflexivity. Qed.

(** * Further properties *)

(** ** markVideoAsPlayed and the two daily lists *)

Section PlayedToday.

Lemma firstn_In_incl {A} n (l : list A) x : In x (firstn n l) -> In x l.
Proof.
  intros H. rewrite <- (firstn_skipn n l). apply in_or_app. left. exact H.
Qed.

Lemma interval_positive k : (k < 4)%nat -> 1 <= interval k.
Proof.
  intros H. do 4 (destruct k as [|k]; [unfold interval; simpl; lia|]). lia.
Qed.

Lemma playedVideo_not_new now v : isNew (playedVideo now v) = false.
Proof.
  unfold isNew, playedVideo. destruct (v_firstPlayDate v); [|reflexivity].
  now destruct (_ <? _)%nat.
Qed.

Lemma playedVideo_isDue now t v :
  isDue (midnight t) (playedVideo now v) =
  if (intervalIndex v <? 4)%nat
  then addDays (midnight now) (interval (intervalIndex v)) <=? midnight t
  else false.
Proof.
  unfold isDue, playedVideo, intervalIndex.
  destruct (v_firstPlayDate v) as [first|].
  - replace (v_reviewCount v + 1 <? 5)%nat with (v_reviewCount v <? 4)%nat.
    + destruct (v_reviewCount v <? 4)%nat; [|reflexivity].
      cbn [v_nextReviewDate v_status VideoStatus_eqb].
      replace (v_reviewCount v + 1 - 1)%nat with (v_reviewCount v) by lia.
      rewrite midnight_addDays. reflexivity.
    + destruct (Nat.ltb_spec (v_reviewCount v) 4),
               (Nat.ltb_spec (v_reviewCount v + 1) 5); auto; lia.
  - cbn [v_nextReviewDate v_status VideoStatus_eqb Nat.ltb Nat.leb].
    rewrite midnight_idem, midnight_addDays. reflexivity.
Qed.

Lemma playedVideo_not_due_today now v :
  isDue (midnight now) (playedVideo now v) = false.
Proof.
  rewrite playedVideo_isDue.
  destruct (Nat.ltb_spec (intervalIndex v) 4) as [H|H]; [|reflexivity].
  apply Z.leb_gt. pose proof (interval_positive _ H) as Hp.
  unfold addDays. pose proof MS_PER_DAY_pos. nia.
Qed.

Lemma markVideoAsPlayed_In now videoId st v :
  In v (videos (markVideoAsPlayed now videoId st)) ->
  v_id v = videoId ->
  exists v0, In v0 (videos st) /\ v = playedVideo now v0.
Proof.
  unfold markVideoAsPlayed. simpl. intros Hin Hid.
  apply in_map_iff in Hin. destruct Hin as (v0 & Hv & Hin).
  exists v0. split; [exact Hin|].
  destruct (v_id v0 =? videoId)%string eqn:E; [now symmetry|].
  subst v. apply String.eqb_neq in E. contradiction.
Qed.

End PlayedToday.

(** X1: a call of [markVideoAsPlayed] with an id that no stored video has
    leaves the whole state as it was. *)
Theorem markVideoAsPlayed_unknown_id :
  forall now videoId st,
    (forall v, In v (videos st) -> v_id v <> videoId) ->
    markVideoAsPlayed now videoId st = st.
Proof.
  intros now videoId st H. unfold markVideoAsPlayed.
  assert (Hv : map (fun video => if (v_id video =? videoId)%string
                                 then playedVideo now video else video)
                   (videos st) = videos st).
  { rewrite <- (map_id (videos st)) at 2. apply map_ext_in. intros v Hin.
    destruct (String.eqb_spec (v_id v) videoId) as [E|E]; [|reflexivity].
    now apply H in Hin. }
  assert (Hc : forall l cs,
             (forall v, In v l -> v_id v <> videoId) ->
             fold_left
               (fun cs video =>
                  if (v_id video =? videoId)%string && reachesCompleted video
                  then map (bumpCompleted (v_collectionId video)) cs
                  else cs) l cs = cs).
  { induction l as [|v l IH]; intros cs Hl; [reflexivity|].
    simpl. destruct (String.eqb_spec (v_id v) videoId) as [E|E].
    - exfalso. apply (Hl v); [left; reflexivity|exact E].
    - simpl. apply IH. intros w Hw. apply Hl. right. exact Hw. }
  rewrite Hv, (Hc _ _ H). apply State_eta.
Qed.

Lemma markVideoAsPlayed_unknown_id_witness :
  markVideoAsPlayed (Sample.at10 0) "gone" (Sample.store 0 false)
    = Sample.store 0 false.
Proof.
  apply (markVideoAsPlayed_unknown_id (Sample.at10 0) "gone"
           (Sample.store 0 false)).
  intros v [<-|[<-|[]]]; vm_compute; discriminate.
Defined.

(** X2: on the day a video is marked as played it is in neither daily
    list any more: no item of [getTodayReviews] and no item of
    [getTodayNewVideos], extra or not, names it. *)
Theorem played_video_leaves_todays_lists :
  forall now videoId st extra item,
    let st' := markVideoAsPlayed now videoId st in
    In item (getTodayReviews now st') \/ In item (getTodayNewVideos extra st') ->
    i_videoId item <> videoId.
Proof.
  intros now videoId st extra item st' [Hin|Hin] Hid.
  - unfold getTodayReviews in Hin. apply in_map_iff in Hin.
    destruct Hin as (v & <- & Hv). simpl in Hid.
    apply reviewVideos_In in Hv. destruct Hv as [Hv Hdue].
    destruct (markVideoAsPlayed_In _ _ _ _ Hv Hid) as (v0 & _ & ->).
    pose proof (playedVideo_not_due_today now v0) as Hn.
    assert (Hd : isDue (midnight now) (playedVideo now v0) = true).
    { apply isDue_spec. destruct Hdue as (Ha & Hb & _). now split. }
    congruence.
  - unfold getTodayNewVideos in Hin. apply in_map_iff in Hin.
    destruct Hin as (v & <- & Hv). simpl in Hid.
    assert (Hf : In v (filter isNew (activeVideos st'))).
    { destruct extra; eapply firstn_In_incl; exact Hv. }
    apply filter_In in Hf. destruct Hf as [Hact Hnew].
    unfold activeVideos in Hact. apply filter_In in Hact.
    destruct Hact as [Hv' _].
    destruct (markVideoAsPlayed_In _ _ _ _ Hv' Hid) as (v0 & _ & ->).
    rewrite playedVideo_not_new in Hnew. discriminate.
Qed.

(** X3: a playthrough at [now] that reads position [k < 4] of
    [REVIEW_INTERVALS] (0 for the first playthrough, else the video's
    [reviewCount]) makes the video due exactly from the day
    [REVIEW_INTERVALS[k]] days after the day of [now]; a playthrough of a
    video already played four times or more leaves it never due. *)
Theorem played_video_due_from :
  forall now t v,
    ((intervalIndex v < 4)%nat ->
     (isDue (midnight t) (playedVideo now v) = true <->
      addDays (midnight now) (interval (intervalIndex v)) <= midnight t)) /\
    ((4 <= intervalIndex v)%nat ->
     isDue (midnight t) (playedVideo now v) = false).
Proof.
  intros now t v. rewrite playedVideo_isDue. split; intros H.
  - apply Nat.ltb_lt in H. rewrite H. apply Z.leb_le.
  - apply Nat.ltb_ge in H. now rewrite H.
Qed.

(** ** getTodayNewVideos and getStats *)

Section NewVideos.

Lemma isNew_spec v : isNew v = true <-> v_status v = StNew.
Proof. apply VideoStatus_eqb_eq. Qed.

Lemma activeVideos_In st v :
  In v (activeVideos st) <->
  In v (videos st) /\
  exists c, In c (collections st) /\ c_id c = v_collectionId v /\
            c_isActive c = true.
Proof.
  unfold activeVideos. now rewrite filter_In, includes_active.
Qed.

Lemma filter_length_le {A} (f : A -> bool) l :
  (List.length (filter f l) <= List.length l)%nat.
Proof.
  induction l as [|a l IH]; simpl; [lia|]. destruct (f a); simpl; lia.
Qed.

(** Two filters on disjoint predicates share no element. *)
Lemma filter_disjoint_length {A} (f g : A -> bool) l :
  (forall x, f x = true -> g x = false) ->
  (List.length (filter f l) + List.length (filter g l) <= List.length l)%nat.
Proof.
  intros H. induction l as [|a l IH]; simpl; [lia|].
  destruct (f a) eqn:E.
  - rewrite (H a E). simpl. lia.
  - destruct (g a); simpl; lia.
Qed.

Lemma newBatch_length extra st :
  List.length (getTodayNewVideos extra st)
    = Nat.min (if extra then 6 else 4) (List.length (newCandidates st)).
Proof.
  unfold getTodayNewVideos, newCandidates, MAX_NEW_PER_DAY.
  destruct extra; now rewrite length_map, length_firstn.
Qed.

End NewVideos.

(** X4: [getTodayNewVideos] hands out the first 4 new videos of the active
    collections, or the first 6 for an extra session, fewer when fewer are
    left; the normal batch is the first four items of the extra batch. *)
Theorem getTodayNewVideos_batches :
  forall st,
    List.length (getTodayNewVideos false st)
      = Nat.min 4 (List.length (newCandidates st)) /\
    List.length (getTodayNewVideos true st)
      = Nat.min 6 (List.length (newCandidates st)) /\
    getTodayNewVideos false st = firstn 4 (getTodayNewVideos true st) /\
    map i_videoId (getTodayNewVideos true st)
      = firstn 6 (map v_id (newCandidates st)).
Proof.
  intros st. split; [apply (newBatch_length false)|].
  split; [apply (newBatch_length true)|].
  unfold getTodayNewVideos, newCandidates, MAX_NEW_PER_DAY.
  simpl Nat.add. split.
  - rewrite <- !firstn_map, firstn_firstn. reflexivity.
  - rewrite map_map, <- firstn_map. reflexivity.
Qed.

(** X5: every item of [getTodayNewVideos] is a first appearance
    ([reviewType] new, [reviewNumber] 1) of a stored video whose status is
    [new] and whose collection is active. *)
Theorem getTodayNewVideos_sound :
  forall extra st item,
    In item (getTodayNewVideos extra st) ->
    i_reviewType item = PtNew /\ i_reviewNumber item = 1%nat /\
    exists v, In v (videos st) /\ v_id v = i_videoId item /\
              v_status v = StNew /\
              exists c, In c (collections st) /\
                        c_id c = v_collectionId v /\ c_isActive c = true.
Proof.
  intros extra st item Hin. unfold getTodayNewVideos in Hin.
  apply in_map_iff in Hin. destruct Hin as (v & <- & Hv).
  assert (Hf : In v (filter isNew (activeVideos st))).
  { destruct extra; eapply firstn_In_incl; exact Hv. }
  apply filter_In in Hf. destruct Hf as [Hact Hnew].
  apply activeVideos_In in Hact. destruct Hact as [Hin Hc].
  repeat split. exists v. repeat split; try assumption.
  now apply isNew_spec.
Qed.

Lemma getTodayNewVideos_sound_witness :
  let item := Sample.newItem "v1" in
  i_reviewType item = PtNew /\ i_reviewNumber item = 1%nat /\
  exists v, In v (videos (Sample.store 0 false)) /\ v_id v = i_videoId item /\
            v_status v = StNew /\
            exists c, In c (collections (Sample.store 0 false)) /\
                      c_id c = v_collectionId v /\ c_isActive c = true.
Proof.
  apply (getTodayNewVideos_sound false (Sample.store 0 false)
           (Sample.newItem "v1")).
  simpl. left. reflexivity.
Defined.

(** X6: [getStats] never reports [canAddExtra]: the flag asks for an
    empty normal batch and for a new video in an active collection at the
    same time, and the normal batch is empty only when there is none. *)
Theorem getStats_never_offers_extra :
  forall now st, s_canAddExtra (getStats now st) = false.
Proof.
  intros now st. unfold getStats. cbn [s_canAddExtra].
  rewrite (newBatch_length false). unfold newCandidates.
  destruct (existsb isNew (activeVideos st)) eqn:E;
    [|now rewrite andb_false_r].
  apply existsb_exists in E. destruct E as (v & Hin & Hnew).
  assert (Hf : In v (filter isNew (activeVideos st)))
    by (apply filter_In; split; assumption).
  destruct (filter isNew (activeVideos st)); [destruct Hf|reflexivity].
Qed.

(** X7: the counts of [getStats] fit together: the completed videos are
    among the active ones, the reviews of today are among the active
    videos that are not completed, and so are the new ones, at most
    [MAX_NEW_PER_DAY] of them. *)
Theorem getStats_counts_bounded :
  forall now st,
    let s := getStats now st in
    (s_completedVideos s + s_todayReviewCount s <= s_totalVideos s)%nat /\
    (s_completedVideos s + s_todayNewCount s <= s_totalVideos s)%nat /\
    (s_todayNewCount s <= MAX_NEW_PER_DAY)%nat /\
    (s_activeCollections s <= List.length (collections st))%nat.
Proof.
  intros now st s. subst s. unfold getStats.
  cbn [s_completedVideos s_todayReviewCount s_totalVideos s_todayNewCount
       s_activeCollections].
  split; [|split; [|split]].
  - unfold getTodayReviews, reviewVideos. rewrite length_map.
    rewrite <- (Permutation_length (sortBy_Permutation compareReview _)).
    apply filter_disjoint_length. intros v Hv. unfold isDue.
    rewrite Hv. now destruct (v_nextReviewDate v).
  - rewrite (newBatch_length false).
    pose proof (filter_disjoint_length
                  (fun v => VideoStatus_eqb (v_status v) StCompleted)
                  isNew (activeVideos st)) as H.
    unfold newCandidates.
    assert (Hd : forall v, VideoStatus_eqb (v_status v) StCompleted = true ->
                           isNew v = false).
    { intros v Hv. apply VideoStatus_eqb_eq in Hv. unfold isNew.
      now rewrite Hv. }
    specialize (H Hd). lia.
  - rewrite (newBatch_length false). unfold MAX_NEW_PER_DAY. lia.
  - apply filter_length_le.
Qed.

(** ** Collections and the daily lists *)

Section CollectionsFacts.

(** The daily lists and the statistics read the videos only through
    [activeVideos]. *)
Lemma daily_lists_of_activeVideos now extra st1 st2 :
  activeVideos st1 = activeVideos st2 ->
  getTodayReviews now st1 = getTodayReviews now st2 /\
  getTodayNewVideos extra st1 = getTodayNewVideos extra st2.
Proof.
  intros H. unfold getTodayReviews, reviewVideos, getTodayNewVideos.
  now rewrite H.
Qed.

Lemma flipActive_id c k : c_id (flipActive c k) = c_id k.
Proof. unfold flipActive. now destruct (_ =? _)%string. Qed.

Lemma flipActive_twice c k : flipActive c (flipActive c k) = k.
Proof.
  unfold flipActive. destruct (c_id k =? c)%string eqn:E.
  - simpl. rewrite E, negb_involutive. now destruct k.
  - now rewrite E.
Qed.

Lemma rename_active c n d k : c_isActive (rename c n d k) = c_isActive k.
Proof. unfold rename. now destruct (_ =? _)%string. Qed.

Lemma rename_id c n d k : c_id (rename c n d k) = c_id k.
Proof. unfold rename. now destruct (_ =? _)%string. Qed.

Lemma rename_twice c n1 d1 n2 d2 k :
  rename c n2 d2 (rename c n1 d1 k) = rename c n2 d2 k.
Proof.
  unfold rename. destruct (c_id k =? c)%string eqn:E.
  - simpl. now rewrite E.
  - now rewrite E.
Qed.

Lemma activeIds_rename c n d l :
  map c_id (filter c_isActive (map (rename c n d) l))
  = map c_id (filter c_isActive l).
Proof.
  induction l as [|k l IH]; [reflexivity|].
  simpl. rewrite rename_active. destruct (c_isActive k); simpl.
  - now rewrite rename_id, IH.
  - exact IH.
Qed.

Lemma includes_app ids1 ids2 x :
  includes (ids1 ++ ids2) x = includes ids1 x || includes ids2 x.
Proof. unfold includes. apply existsb_app. Qed.

(** After the flip of the collections called [c], all of them active
    before, [c] is no active id and the other ids are active as before. *)
Lemma includes_after_flip c l x :
  (forall k, In k l -> c_id k = c -> c_isActive k = true) ->
  includes (map c_id (filter c_isActive (map (flipActive c) l))) x
  = negb (x =? c)%string && includes (map c_id (filter c_isActive l)) x.
Proof.
  intros H. unfold includes. induction l as [|k l IH].
  - simpl. now rewrite andb_false_r.
  - assert (IH' := IH (fun k' Hk' => H k' (or_intror Hk'))).
    cbn [map]. destruct (String.eqb_spec (c_id k) c) as [E|E].
    + assert (Hoff : c_isActive (flipActive c k) = false).
      { unfold flipActive. apply String.eqb_eq in E. rewrite E. simpl.
        apply String.eqb_eq in E.
        now rewrite (H k (or_introl eq_refl) E). }
      cbn [filter]. rewrite Hoff, IH'.
      rewrite (H k (or_introl eq_refl) E). cbn [map existsb]. rewrite E.
      destruct (x =? c)%string; reflexivity.
    + assert (Hk : flipActive c k = k).
      { unfold flipActive. apply String.eqb_neq in E. now rewrite E. }
      rewrite Hk. cbn [filter]. destruct (c_isActive k); [|exact IH'].
      cbn [map existsb]. rewrite IH'.
      destruct (String.eqb_spec x (c_id k)) as [E'|E']; [|reflexivity].
      subst x. apply String.eqb_neq in E. now rewrite E.
Qed.

Lemma filter_filter {A} (f g : A -> bool) l :
  filter f (filter g l) = filter (fun x => g x && f x) l.
Proof.
  induction l as [|a l IH]; [reflexivity|].
  simpl. destruct (g a); simpl; [|exact IH].
  destruct (f a); now rewrite IH.
Qed.

End CollectionsFacts.

(** X8: [toggleCollection] is its own inverse: toggling the same
    collection twice gives back the state. *)
Theorem toggleCollection_twice :
  forall c st, toggleCollection c (toggleCollection c st) = st.
Proof.
  intros c st. unfold toggleCollection. simpl. rewrite map_map.
  rewrite (map_ext _ (fun k => k)) by apply flipActive_twice.
  rewrite map_id. apply State_eta.
Qed.

(** X9: switching an active collection off takes exactly its videos out of
    what the scheduler looks at: the active videos after the toggle are
    the active videos before that belong to another collection, so no
    video of the collection is listed for review. *)
Theorem toggleCollection_hides_videos :
  forall c now st,
    (forall k, In k (collections st) -> c_id k = c -> c_isActive k = true) ->
    let st' := toggleCollection c st in
    activeVideos st' =
      filter (fun v => negb (v_collectionId v =? c)%string) (activeVideos st) /\
    (forall v, In v (reviewVideos now st') -> v_collectionId v <> c).
Proof.
  intros c now st H st'.
  assert (Ha : activeVideos st' =
               filter (fun v => negb (v_collectionId v =? c)%string)
                      (activeVideos st)).
  { subst st'. unfold activeVideos, activeCollectionIds, toggleCollection.
    simpl. rewrite filter_filter. apply filter_ext. intros v.
    rewrite (includes_after_flip c _ _ H). apply andb_comm. }
  split; [exact Ha|].
  intros v Hv. unfold reviewVideos in Hv. apply sortBy_In in Hv.
  apply filter_In in Hv. destruct Hv as [Hv _]. rewrite Ha in Hv.
  apply filter_In in Hv. destruct Hv as [_ Hv].
  apply negb_true_iff in Hv. now apply String.eqb_neq.
Qed.

Lemma toggleCollection_hides_videos_witness :
  let st' := toggleCollection "c1" (Sample.store 0 false) in
  activeVideos st' =
    filter (fun v => negb (v_collectionId v =? "c1")%string)
           (activeVideos (Sample.store 0 false)) /\
  (forall v, In v (reviewVideos (Sample.at10 1) st') ->
             v_collectionId v <> "c1").
Proof.
  apply (toggleCollection_hides_videos "c1" (Sample.at10 1)
           (Sample.store 0 false)).
  intros k [<-|[]] _. reflexivity.
Defined.

(** X10: [updateCollection] only relabels: the last name and description
    given win, and the daily lists are what they were. *)
Theorem updateCollection_relabels :
  forall c name1 description1 name2 description2 now extra st,
    updateCollection c name2 description2
      (updateCollection c name1 description1 st)
      = updateCollection c name2 description2 st /\
    getTodayReviews now (updateCollection c name1 description1 st)
      = getTodayReviews now st /\
    getTodayNewVideos extra (updateCollection c name1 description1 st)
      = getTodayNewVideos extra st.
Proof.
  intros c n1 d1 n2 d2 now extra st. split.
  - unfold updateCollection. simpl. rewrite map_map.
    now rewrite (map_ext _ _ (rename_twice c n1 d1 n2 d2)).
  - apply daily_lists_of_activeVideos.
    unfold activeVideos, activeCollectionIds, updateCollection. simpl.
    now rewrite activeIds_rename.
Qed.

(** X11: [createCollection] hands back the generated id and appends an
    active collection with no video; when no stored video carries that id
    as its collection, the daily lists are what they were. *)
Theorem createCollection_fresh :
  forall name description at_ uuid color now extra st,
    (forall v, In v (videos st) -> v_collectionId v <> uuid) ->
    let made := createCollection name description at_ uuid color st in
    fst made = uuid /\
    (exists k, collections (snd made) = (collections st ++ [k])%list /\
               c_id k = uuid /\ c_isActive k = true /\
               c_totalVideos k = 0%nat /\ c_completedVideos k = 0%nat) /\
    getTodayReviews now (snd made) = getTodayReviews now st /\
    getTodayNewVideos extra (snd made) = getTodayNewVideos extra st.
Proof.
  intros name description at_ uuid color now extra st H made.
  split; [reflexivity|]. split.
  - eexists. split; [reflexivity|]. repeat split.
  - apply daily_lists_of_activeVideos.
    subst made. unfold activeVideos, activeCollectionIds, createCollection.
    simpl. apply filter_ext_in. intros v Hv.
    rewrite filter_app, map_app, includes_app. simpl.
    unfold includes at 2. simpl.
    destruct (String.eqb_spec (v_collectionId v) uuid) as [E|E].
    + now apply H in Hv.
    + now rewrite !orb_false_r.
Qed.

Lemma createCollection_fresh_witness :
  let made := createCollection "songs" None (Sample.at10 2) "c2" "#10B981"
                               (Sample.store 0 false) in
  fst made = "c2" /\
  (exists k, collections (snd made)
             = (collections (Sample.store 0 false) ++ [k])%list /\
             c_id k = "c2" /\ c_isActive k = true /\
             c_totalVideos k = 0%nat /\ c_completedVideos k = 0%nat) /\
  getTodayReviews (Sample.at10 2) (snd made)
    = getTodayReviews (Sample.at10 2) (Sample.store 0 false) /\
  getTodayNewVideos true (snd made)
    = getTodayNewVideos true (Sample.store 0 false).
Proof.
  apply (createCollection_fresh "songs" None (Sample.at10 2) "c2" "#10B981"
           (Sample.at10 2) true (Sample.store 0 false)).
  intros v [<-|[<-|[]]]; vm_compute; discriminate.
Defined.

(** ** The stored totals of the collections *)

Section Totals.

Lemma countIn_app c vs ws :
  countIn c (vs ++ ws) = (countIn c vs + countIn c ws)%nat.
Proof. unfold countIn. now rewrite filter_app, length_app. Qed.

Lemma ingest_length i c files :
  List.length (ingest i c files) = List.length files.
Proof.
  revert i. induction files as [|f files IH]; intros i; [reflexivity|].
  simpl. now rewrite IH.
Qed.

Lemma ingest_ids i c files : map v_id (ingest i c files) = map u_id files.
Proof.
  revert i. induction files as [|f files IH]; intros i; [reflexivity|].
  simpl. now rewrite IH.
Qed.

Lemma countIn_ingest k i c files :
  countIn k (ingest i c files)
  = if (c =? k)%string then List.length files else 0%nat.
Proof.
  revert i. induction files as [|f files IH]; intros i.
  - simpl. now destruct (c =? k)%string.
  - unfold countIn in *. simpl. specialize (IH (S i)).
    destruct (c =? k)%string; simpl; now rewrite IH.
Qed.

Lemma filter_all {A} (f : A -> bool) l :
  (forall x, In x l -> f x = true) -> filter f l = l.
Proof.
  intros H. induction l as [|a l IH]; [reflexivity|].
  simpl. rewrite (H a (or_introl eq_refl)). f_equal.
  apply IH. intros x Hx. apply H. now right.
Qed.

Lemma find_none_filter videoId vs :
  find (fun v => (v_id v =? videoId)%string) vs = None ->
  filter (fun v => negb (v_id v =? videoId)%string) vs = vs.
Proof.
  intros H. apply filter_all. intros x Hx.
  now rewrite (find_none _ _ H x Hx).
Qed.

(** With distinct ids, the removal of the video found under an id takes
    one video out of its collection and none out of the others. *)
Lemma countIn_remove videoId vs v c :
  NoDup (map v_id vs) ->
  find (fun w => (v_id w =? videoId)%string) vs = Some v ->
  countIn c vs =
  (countIn c (filter (fun w => negb (v_id w =? videoId)%string) vs)
   + if (v_collectionId v =? c)%string then 1 else 0)%nat.
Proof.
  intros Hnd Hfind. induction vs as [|a vs IH]; [discriminate|].
  simpl in Hnd. inversion Hnd as [|? ? Hnotin Hnd']; subst.
  simpl in Hfind. unfold countIn in *. simpl.
  destruct (String.eqb_spec (v_id a) videoId) as [E|E].
  - injection Hfind as <-. simpl.
    rewrite (filter_all (fun w => negb (v_id w =? videoId)%string) vs).
    + destruct (v_collectionId a =? c)%string; simpl; lia.
    + intros x Hx. apply negb_true_iff, String.eqb_neq. intros Hid.
      apply Hnotin. rewrite E, <- Hid. now apply in_map.
  - simpl. specialize (IH Hnd' Hfind).
    destruct (v_collectionId a =? c)%string; simpl; lia.
Qed.

Lemma playedVideo_map_collectionId now videoId vs :
  map v_collectionId
      (map (fun video => if (v_id video =? videoId)%string
                         then playedVideo now video else video) vs)
  = map v_collectionId vs.
Proof.
  rewrite map_map. apply map_ext. intros v.
  destruct (_ =? _)%string; [apply playedVideo_collectionId|reflexivity].
Qed.

Lemma countIn_by_collectionId c vs ws :
  map v_collectionId vs = map v_collectionId ws ->
  countIn c vs = countIn c ws.
Proof.
  revert ws. induction vs as [|v vs IH]; intros [|w ws] H; try discriminate.
  - reflexivity.
  - simpl in H. injection H as Hc Ht. unfold countIn in *. simpl.
    rewrite Hc. specialize (IH ws Ht).
    destruct (_ =? _)%string; simpl; now rewrite IH.
Qed.

Lemma bumpCompleted_totals k c :
  c_id (bumpCompleted k c) = c_id c /\
  c_totalVideos (bumpCompleted k c) = c_totalVideos c.
Proof. unfold bumpCompleted. now destruct (_ =? _)%string. Qed.

Lemma marked_collections_Forall (P : Collection -> Prop) videoId vs cs :
  (forall k c, P c -> P (bumpCompleted k c)) ->
  Forall P cs ->
  Forall P
    (fold_left
       (fun cs video =>
          if (v_id video =? videoId)%string && reachesCompleted video
          then map (bumpCompleted (v_collectionId video)) cs
          else cs) vs cs).
Proof.
  intros HP. revert cs. induction vs as [|v vs IH]; intros cs H; [exact H|].
  simpl. apply IH. destruct (_ && _); [|exact H].
  apply Forall_map. eapply Forall_impl; [|exact H]. intros c. apply HP.
Qed.

End Totals.

(** X12: [addVideos] keeps the stored totals right: when every
    collection's [totalVideos] is the number of its stored videos before
    the call, it is so after it; the call hands back the ids generated for
    the files, in order. *)
Theorem addVideos_keeps_totals :
  forall files collectionId st,
    totalsMatch st ->
    let added := addVideos files collectionId st in
    totalsMatch (snd added) /\
    fst added = map u_id files /\
    List.length (videos (snd added))
      = (List.length (videos st) + List.length files)%nat.
Proof.
  intros files c st H added. subst added. unfold addVideos. simpl.
  split; [|split].
  - unfold totalsMatch in *. simpl. apply Forall_map.
    eapply Forall_impl; [|exact H]. intros k Hk. simpl in Hk.
    rewrite countIn_app, ingest_length.
    unfold addToTotal. destruct (String.eqb_spec (c_id k) c) as [E|E].
    + cbn [c_id c_totalVideos]. rewrite countIn_ingest.
      replace (c =? c_id k)%string with true
        by (symmetry; now apply String.eqb_eq).
      lia.
    + rewrite countIn_ingest. apply not_eq_sym in E.
      apply String.eqb_neq in E. rewrite E. lia.
  - apply ingest_ids.
  - now rewrite length_app, ingest_length.
Qed.

Lemma Sample_store_totalsMatch lastPlayedIndex isCompleted :
  totalsMatch (Sample.store lastPlayedIndex isCompleted).
Proof. repeat constructor. Qed.

Lemma Sample_store_NoDup lastPlayedIndex isCompleted :
  NoDup (map v_id (videos (Sample.store lastPlayedIndex isCompleted))).
Proof.
  simpl. repeat constructor; simpl; intuition discriminate.
Qed.

Lemma addVideos_keeps_totals_witness :
  let files := [ {| u_id := "v3"; u_fileName := "lesson 3.mp4";
                    u_fileUrl := "blob:3"; u_at := Sample.at10 1 |} ] in
  let added := addVideos files "c1" (Sample.store 0 false) in
  totalsMatch (snd added) /\
  fst added = ["v3"] /\
  List.length (videos (snd added)) = 3%nat.
Proof.
  exact (addVideos_keeps_totals
           [ {| u_id := "v3"; u_fileName := "lesson 3.mp4";
                u_fileUrl := "blob:3"; u_at := Sample.at10 1 |} ]
           "c1" (Sample.store 0 false) (Sample_store_totalsMatch 0 false)).
Defined.

(** X13: [deleteVideo] keeps the stored totals right when the file store
    deleted the file and the ids of the stored videos are distinct. *)
Theorem deleteVideo_keeps_totals :
  forall videoId st,
    NoDup (map v_id (videos st)) ->
    totalsMatch st ->
    totalsMatch (deleteVideo true videoId st).
Proof.
  intros videoId st Hnd H. unfold totalsMatch, deleteVideo in *. simpl.
  destruct (find (fun v => (v_id v =? videoId)%string) (videos st))
    as [v|] eqn:Hfind.
  - apply Forall_map. eapply Forall_impl; [|exact H]. intros k Hk.
    simpl in Hk. pose proof (countIn_remove videoId _ v (c_id k) Hnd Hfind)
      as Hcount.
    unfold dropFromTotals. rewrite (String.eqb_sym (c_id k)).
    destruct (v_collectionId v =? c_id k)%string;
      cbn [c_id c_totalVideos]; lia.
  - now rewrite (find_none_filter _ _ Hfind).
Qed.

Lemma deleteVideo_keeps_totals_witness :
  totalsMatch (deleteVideo true "v1" (Sample.store 0 false)).
Proof.
  exact (deleteVideo_keeps_totals "v1" (Sample.store 0 false)
           (Sample_store_NoDup 0 false) (Sample_store_totalsMatch 0 false)).
Defined.

(** X14: [deleteCollection] and [markVideoAsPlayed] keep the stored totals
    right: the first removes a collection together with its videos, the
    second changes neither a total nor the collection of a video. *)
Theorem totals_kept_by_delete_and_play :
  forall st,
    totalsMatch st ->
    (forall c, totalsMatch (deleteCollection c st)) /\
    (forall now videoId, totalsMatch (markVideoAsPlayed now videoId st)).
Proof.
  intros st H. split.
  - intros c. unfold totalsMatch, deleteCollection in *. simpl.
    apply Forall_forall. intros k Hk. apply filter_In in Hk.
    destruct Hk as [Hin Hne]. rewrite Forall_forall in H.
    rewrite (H k Hin). unfold countIn. rewrite filter_filter.
    f_equal. apply filter_ext. intros v.
    destruct (String.eqb_spec (v_collectionId v) (c_id k)) as [E|E].
    + rewrite E, Hne. reflexivity.
    + symmetry. apply andb_false_r.
  - intros now videoId. unfold totalsMatch, markVideoAsPlayed in *. simpl.
    apply marked_collections_Forall.
    + intros k c Hc. destruct (bumpCompleted_totals k c) as [-> ->]. exact Hc.
    + eapply Forall_impl; [|exact H]. intros k Hk. simpl in Hk.
      rewrite Hk. apply countIn_by_collectionId.
      symmetry. apply playedVideo_map_collectionId.
Qed.

Lemma totals_kept_by_delete_and_play_witness :
  (forall c, totalsMatch (deleteCollection c (Sample.store 0 false))) /\
  (forall now videoId,
     totalsMatch (markVideoAsPlayed now videoId (Sample.store 0 false))).
Proof.
  exact (totals_kept_by_delete_and_play (Sample.store 0 false)
           (Sample_store_totalsMatch 0 false)).
Defined.

(** ** Looking videos up *)

Section Lookup.

Lemma find_after_removal videoId other vs :
  find (fun v => (v_id v =? other)%string)
       (filter (fun v => negb (v_id v =? videoId)%string) vs)
  = if (other =? videoId)%string then None
    else find (fun v => (v_id v =? other)%string) vs.
Proof.
  induction vs as [|v vs IH].
  - simpl. now destruct (_ =? _)%string.
  - simpl. destruct (String.eqb_spec (v_id v) videoId) as [E|E]; simpl.
    + rewrite IH. destruct (String.eqb_spec other videoId) as [E'|E'];
        [reflexivity|].
      destruct (String.eqb_spec (v_id v) other) as [E''|E'']; [|reflexivity].
      congruence.
    + rewrite IH. destruct (String.eqb_spec (v_id v) other) as [E''|E''];
        [|reflexivity].
      destruct (String.eqb_spec other videoId) as [E'|E']; [|reflexivity].
      congruence.
Qed.

Lemma find_app_first {A} (f : A -> bool) l1 l2 :
  find f (l1 ++ l2) = match find f l1 with
                      | Some x => Some x
                      | None => find f l2
                      end.
Proof.
  induction l1 as [|a l1 IH]; [reflexivity|].
  simpl. now destruct (f a).
Qed.

Lemma find_ingest id i j c files f :
  NoDup (map u_id files) ->
  nth_error files j = Some f ->
  u_id f = id ->
  find (fun v => (v_id v =? id)%string) (ingest i c files)
  = Some (newVideo id (stripExtension (u_fileName f)) (u_fileUrl f) (u_at f)
                   c (i + j)).
Proof.
  revert i j. induction files as [|g files IH]; intros i j Hnd Hnth Hid.
  - now destruct j.
  - simpl in Hnd. inversion Hnd as [|? ? Hnotin Hnd']; subst.
    destruct j as [|j]; simpl in Hnth.
    + injection Hnth as ->. simpl. rewrite String.eqb_refl.
      now rewrite Nat.add_0_r.
    + simpl. destruct (String.eqb_spec (u_id g) (u_id f)) as [E|E].
      * exfalso. apply Hnotin. rewrite E. apply in_map.
        eapply nth_error_In. exact Hnth.
      * rewrite (IH (S i) j Hnd' Hnth eq_refl). f_equal. f_equal. lia.
Qed.

Lemma getVideoById_after_removal_other fileDeleted videoId st other :
  other <> videoId ->
  getVideoById other (deleteVideo fileDeleted videoId st)
    = getVideoById other st /\
  getVideoById other (removeVideoById fileDeleted videoId st)
    = getVideoById other st.
Proof.
  intros H. unfold getVideoById, removeVideoById, deleteVideo. simpl.
  rewrite find_after_removal. apply String.eqb_neq in H. now rewrite H.
Qed.

End Lookup.

(** X15: after [deleteVideo] and after [removeVideoById] the id is not
    found any more, whether or not the file store deleted the file, and
    every other id is looked up as before. *)
Theorem getVideoById_after_removal :
  forall fileDeleted videoId st,
    getVideoById videoId (deleteVideo fileDeleted videoId st) = None /\
    getVideoById videoId (removeVideoById fileDeleted videoId st) = None /\
    (forall other, other <> videoId ->
       getVideoById other (deleteVideo fileDeleted videoId st)
         = getVideoById other st /\
       getVideoById other (removeVideoById fileDeleted videoId st)
         = getVideoById other st).
Proof.
  intros b videoId st. unfold getVideoById, removeVideoById, deleteVideo.
  simpl. rewrite !find_after_removal, String.eqb_refl.
  split; [reflexivity|]. split; [reflexivity|].
  intros other H. apply (getVideoById_after_removal_other b videoId st other H).
Qed.

(** X16: a video ingested by [addVideos] under an id that is new to the
    store, and used once in the call, is found under that id afterwards:
    it is [new], never played, in the collection given, named after the
    file without its extension and numbered by its position in the call;
    and every id found before the call still gives the same video. *)
Theorem getVideoById_after_addVideos :
  forall files collectionId st i file,
    NoDup (map u_id files) ->
    nth_error files i = Some file ->
    getVideoById (u_id file) st = None ->
    let st' := snd (addVideos files collectionId st) in
    getVideoById (u_id file) st' =
      Some {| v_id := u_id file;
              v_name := stripExtension (u_fileName file);
              v_fileUrl := Some (u_fileUrl file);
              v_dateAdded := u_at file;
              v_reviewCount := 0; v_status := StNew;
              v_collectionId := collectionId;
              v_episodeNumber := i + 1;
              v_firstPlayDate := None; v_nextReviewDate := None |} /\
    (forall id v, getVideoById id st = Some v -> getVideoById id st' = Some v).
Proof.
  intros files c st i file Hnd Hnth Hnew st'. subst st'.
  unfold getVideoById, addVideos in *. simpl. split.
  - rewrite find_app_first, Hnew.
    now rewrite (find_ingest (u_id file) 0 i c files file Hnd Hnth eq_refl).
  - intros id v Hv. now rewrite find_app_first, Hv.
Qed.

Lemma getVideoById_after_addVideos_witness :
  let file := {| u_id := "v3"; u_fileName := "lesson 3.mp4";
                 u_fileUrl := "blob:3"; u_at := Sample.at10 1 |} in
  let st' := snd (addVideos [file] "c1" (Sample.store 0 false)) in
  getVideoById "v3" st' =
    Some {| v_id := "v3"; v_name := "lesson 3";
            v_fileUrl := Some "blob:3"; v_dateAdded := Sample.at10 1;
            v_reviewCount := 0; v_status := StNew;
            v_collectionId := "c1"; v_episodeNumber := 1;
            v_firstPlayDate := None; v_nextReviewDate := None |} /\
  (forall id v, getVideoById id (Sample.store 0 false) = Some v ->
                getVideoById id st' = Some v).
Proof.
  apply (getVideoById_after_addVideos
           [ {| u_id := "v3"; u_fileName := "lesson 3.mp4";
                u_fileUrl := "blob:3"; u_at := Sample.at10 1 |} ]
           "c1" (Sample.store 0 false) 0%nat
           {| u_id := "v3"; u_fileName := "lesson 3.mp4";
              u_fileUrl := "blob:3"; u_at := Sample.at10 1 |}).
  - repeat constructor. simpl. intuition.
  - reflexivity.
  - reflexivity.
Defined.

(** ** Sessions and the videos they name *)

Section SessionFacts.

Lemma find_none_filter_nil {A} (f : A -> bool) l :
  find f l = None -> filter f l = [].
Proof.
  induction l as [|a l IH]; [reflexivity|].
  simpl. destruct (f a); [discriminate|exact IH].
Qed.

Lemma updatePlaylistProgress_playlists now s index isCompleted st :
  playlists (updatePlaylistProgress now s index isCompleted st)
  = map (setProgress s index isCompleted) (playlists st).
Proof.
  unfold updatePlaylistProgress. destruct isCompleted; [|reflexivity].
  destruct (find _ _); [|reflexivity].
  now rewrite markItemsAsPlayed_playlists.
Qed.

End SessionFacts.

(** X17: [removeVideoById] leaves no item that names the removed video in
    any stored playlist, and when every item of every playlist named a
    stored video before the call, every item does so after it. *)
Theorem removeVideoById_keeps_items_resolved :
  forall fileDeleted videoId st,
    let st' := removeVideoById fileDeleted videoId st in
    (forall p item, In p (playlists st') -> In item (p_items p) ->
                    i_videoId item <> videoId) /\
    (Resolved st -> Resolved st').
Proof.
  intros b videoId st st'.
  assert (Hitems : forall p item,
             In p (playlists st') -> In item (p_items p) ->
             i_videoId item <> videoId /\
             exists p0, In p0 (playlists st) /\ In item (p_items p0)).
  { intros p item Hp Hitem. subst st'. unfold removeVideoById in Hp.
    simpl in Hp. apply in_map_iff in Hp. destruct Hp as (p0 & <- & Hp0).
    simpl in Hitem. apply filter_In in Hitem. destruct Hitem as [Hin Hne].
    split.
    - apply negb_true_iff in Hne. now apply String.eqb_neq.
    - exists p0. split; assumption. }
  subst st'. split.
  - intros p item Hp Hitem. now destruct (Hitems p item Hp Hitem).
  - intros Hres p item Hp Hitem.
    destruct (Hitems p item Hp Hitem) as (Hne & p0 & Hp0 & Hitem0).
    destruct (getVideoById_after_removal_other b videoId st
                (i_videoId item) Hne) as [_ ->].
    exact (Hres p0 item Hp0 Hitem0).
Qed.

(** X18: the playlist [createTodayPlaylist] returns is stored in the state
    it leaves, the call touches neither videos nor collections, and a
    request for a "new" session keeps the rule of one open "new" playlist
    per day. *)
Theorem createTodayPlaylist_stores_result :
  forall playlistType extra now uuid st,
    let made := createTodayPlaylist playlistType extra now uuid st in
    In (fst made) (playlists (snd made)) /\
    videos (snd made) = videos st /\
    collections (snd made) = collections st /\
    (playlistType = PtNew -> atMostOneOpenNew st ->
     atMostOneOpenNew (snd made)).
Proof.
  intros playlistType extra now uuid st made. subst made.
  unfold createTodayPlaylist. destruct playlistType.
  - destruct (find (isOpenNewOn (midnight now)) (playlists st))
      as [p|] eqn:E.
    + simpl. split; [|repeat split].
      * apply find_some in E. tauto.
      * intros _ H. exact H.
    + simpl. split; [now left|]. repeat split.
      intros _ H day. simpl.
      destruct (isOpenNewOn day _) eqn:Eday; [|apply H].
      unfold isOpenNewOn in Eday. simpl in Eday.
      apply Z.eqb_eq in Eday. subst day.
      rewrite (find_none_filter_nil _ _ E). simpl. lia.
  - simpl. split; [now left|]. repeat split. discriminate.
Qed.

(** X19: a session that has been completed is not handed out again:
    after [updatePlaylistProgress] with completion, neither
    [getLastPlaylist] nor the lookup of [createTodayPlaylist] returns a
    playlist with that id, on any day. *)
Theorem completed_session_not_resumed :
  forall now s index st day p,
    let st' := updatePlaylistProgress now s index true st in
    (find (isOpenNewOn day) (playlists st') = Some p -> p_id p <> s) /\
    (getLastPlaylist day st' = Some p -> p_id p <> s).
Proof.
  intros now s index st day p st'.
  assert (H : forall d, find (isOpenNewOn d) (playlists st') = Some p ->
                        p_id p <> s).
  { intros d Hfind. apply find_some in Hfind. destruct Hfind as [Hin Hopen].
    subst st'. rewrite updatePlaylistProgress_playlists in Hin.
    apply in_map_iff in Hin. destruct Hin as (p0 & <- & _).
    unfold setProgress in *.
    destruct (String.eqb_spec (p_id p0) s) as [E|E]; [|exact E].
    unfold isOpenNewOn in Hopen. simpl in Hopen.
    rewrite orb_true_r in Hopen. discriminate. }
  split; [apply H|]. unfold getLastPlaylist. apply H.
Qed.

(** ** The name of an ingested file *)

Section FileNames.

Lemma isExtension_with_dot s t : isExtension (s ++ String "." t) = false.
Proof.
  induction s as [|c s IH]; [reflexivity|].
  simpl. destruct (isDot c || isSlash c); [reflexivity|]. simpl.
  destruct s; [reflexivity|exact IH].
Qed.

End FileNames.

(** X20: [stripExtension] takes the extension off: for a name made of any
    base, a dot and an extension (not empty, without dot or slash) it
    returns the base, dots and slashes of the base included. *)
Theorem stripExtension_base :
  forall base ext,
    isExtension ext = true ->
    stripExtension (base ++ String "." ext) = base.
Proof.
  intros base ext H. induction base as [|c base IH].
  - simpl. now rewrite H.
  - simpl. rewrite isExtension_with_dot, andb_false_r. now rewrite IH.
Qed.

Lemma stripExtension_base_witness :
  isExtension "mp4" = true /\
  stripExtension ("unit 1/lesson.v2" ++ String "." "mp4") = "unit 1/lesson.v2".
Proof.
  split; [reflexivity|].
  apply (stripExtension_base "unit 1/lesson.v2" "mp4"). reflexivity.
Defined.

(** X21: [stripExtension] does nothing else: a name either ends in a dot
    and an extension, and loses them, or has no such ending (no dot, a
    dot in last place, a slash after the last dot) and is returned as it
    is. *)
Theorem stripExtension_cases :
  forall s,
    (exists base ext, s = base ++ String "." ext /\
                      isExtension ext = true /\ stripExtension s = base) \/
    ((forall base ext, s = base ++ String "." ext -> isExtension ext = false) /\
     stripExtension s = s).
Proof.
  induction s as [|c s IH].
  - right. split; [|reflexivity]. intros [|b base] ext H; discriminate.
  - simpl. destruct (isDot c && isExtension s) eqn:E.
    + left. apply andb_true_iff in E. destruct E as [Hc Hs].
      apply Ascii.eqb_eq in Hc. subst c.
      exists EmptyString, s. repeat split. exact Hs.
    + destruct IH as [(base & ext & -> & Hext & Hstrip)|[Hno Hsame]].
      * left. exists (String c base), ext. simpl. rewrite Hstrip.
        repeat split. exact Hext.
      * right. rewrite Hsame. split; [|reflexivity].
        intros [|b base] ext H; simpl in H.
        -- injection H as -> ->. simpl in E. exact E.
        -- injection H as -> ->. now apply (Hno base ext).
Qed.

(** File names as they come: an extension is dropped once, a hidden file
    loses its whole name, a trailing dot or a slash after the last dot
    keeps the name whole. *)
Example stripExtension_samples :
  stripExtension "talk.tar.gz" = "talk.tar" /\
  stripExtension ".mp4" = "" /\
  stripExtension "notes." = "notes." /\
  stripExtension "v1.0/clip" = "v1.0/clip" /\
  stripExtension "plain" = "plain".
Proof. repeat split. Qed.

(** ** The player's cursor *)

Section Cursor.

Import Player.

Lemma handleVideoEnded_auto len c :
  handleVideoEnded true len c = goToNext len c.
Proof.
  unfold handleVideoEnded, goToNext. simpl.
  destruct (currentIndex c <? Z.of_nat len - 1) eqn:E; [reflexivity|].
  apply Z.ltb_ge in E. apply Z.geb_le in E. now rewrite E.
Qed.

Lemma ended_before_last len k c :
  onItem len c ->
  currentIndex c + Z.of_nat k <= Z.of_nat len - 1 ->
  currentIndex (Nat.iter k (handleVideoEnded true len) c)
    = currentIndex c + Z.of_nat k /\
  completions (Nat.iter k (handleVideoEnded true len) c) = completions c.
Proof.
  intros Hc. induction k as [|k IH]; intros Hk.
  - simpl. split; [lia|reflexivity].
  - destruct IH as [Hi Hn]; [lia|].
    rewrite Nat.iter_succ, handleVideoEnded_auto. unfold goToNext.
    rewrite Hi. destruct (Z.ltb_spec (currentIndex c + Z.of_nat k)
                                     (Z.of_nat len - 1)) as [E|E]; [|lia].
    simpl. split; [lia|exact Hn].
Qed.

End Cursor.

(** X22: the navigation keeps the cursor on the playlist: from a cursor
    on an item, [goToNext], [goToPrevious] and [handleVideoEnded] leave a
    cursor on an item, and they call [onPlaylistComplete] only from the
    last item, once. *)
Theorem Player_cursor_stays_on_playlist :
  forall len autoPlay c c',
    onItem len c ->
    c' = Player.goToNext len c \/ c' = Player.goToPrevious c \/
    c' = Player.handleVideoEnded autoPlay len c ->
    onItem len c' /\
    (Player.completions c' = Player.completions c \/
     (Player.completions c' = S (Player.completions c) /\
      Player.currentIndex c = Z.of_nat len - 1 /\
      Player.currentIndex c' = Player.currentIndex c)).
Proof.
  intros len autoPlay c c' Hc H. unfold onItem in *.
  assert (Hnext : forall d, d = Player.goToNext len c ->
            0 <= Player.currentIndex d < Z.of_nat len /\
            (Player.completions d = Player.completions c \/
             (Player.completions d = S (Player.completions c) /\
              Player.currentIndex c = Z.of_nat len - 1 /\
              Player.currentIndex d = Player.currentIndex c))).
  { intros d ->. unfold Player.goToNext.
    destruct (Z.ltb_spec (Player.currentIndex c) (Z.of_nat len - 1)); simpl.
    - split; [lia|left; reflexivity].
    - split; [lia|right; repeat split; lia]. }
  destruct H as [H|[H|H]].
  - now apply Hnext.
  - subst c'. unfold Player.goToPrevious.
    destruct (Z.gtb_spec (Player.currentIndex c) 0); simpl;
      (split; [lia|left; reflexivity]).
  - subst c'. unfold Player.handleVideoEnded.
    destruct (autoPlay && _) eqn:E; [now apply Hnext|].
    destruct (Z.geb_spec (Player.currentIndex c) (Z.of_nat len - 1)); simpl.
    + split; [lia|right; repeat split; lia].
    + split; [lia|left; reflexivity].
Qed.

Lemma Player_cursor_stays_on_playlist_witness :
  let c := {| Player.currentIndex := 1; Player.isPlaying := true;
              Player.videoError := false; Player.completions := 0 |} in
  let c' := Player.handleVideoEnded true 2 c in
  onItem 2 c' /\
  (Player.completions c' = Player.completions c \/
   (Player.completions c' = S (Player.completions c) /\
    Player.currentIndex c = Z.of_nat 2 - 1 /\
    Player.currentIndex c' = Player.currentIndex c)).
Proof.
  apply (Player_cursor_stays_on_playlist 2 true
           {| Player.currentIndex := 1; Player.isPlaying := true;
              Player.videoError := false; Player.completions := 0 |}).
  - unfold onItem. simpl. lia.
  - right. right. reflexivity.
Defined.

(** X23: stepping forward and back returns to the item: away from the
    last item [goToPrevious] after [goToNext] restores the index, and away
    from the first item [goToNext] after [goToPrevious] does; neither
    calls [onPlaylistComplete]. *)
Theorem Player_next_previous_round_trip :
  forall len c,
    onItem len c ->
    (Player.currentIndex c < Z.of_nat len - 1 ->
     Player.currentIndex (Player.goToPrevious (Player.goToNext len c))
       = Player.currentIndex c /\
     Player.completions (Player.goToPrevious (Player.goToNext len c))
       = Player.completions c) /\
    (0 < Player.currentIndex c ->
     Player.currentIndex (Player.goToNext len (Player.goToPrevious c))
       = Player.currentIndex c /\
     Player.completions (Player.goToNext len (Player.goToPrevious c))
       = Player.completions c).
Proof.
  intros len c Hc. unfold onItem in Hc. split; intros H.
  - unfold Player.goToNext.
    destruct (Z.ltb_spec (Player.currentIndex c) (Z.of_nat len - 1)); [|lia].
    unfold Player.goToPrevious. simpl.
    destruct (Z.gtb_spec (Player.currentIndex c + 1) 0); [|lia].
    simpl. split; [lia|reflexivity].
  - unfold Player.goToPrevious.
    destruct (Z.gtb_spec (Player.currentIndex c) 0); [|lia].
    unfold Player.goToNext. simpl.
    destruct (Z.ltb_spec (Player.currentIndex c - 1) (Z.of_nat len - 1));
      [|lia].
    simpl. split; [lia|reflexivity].
Qed.

Lemma Player_next_previous_round_trip_witness :
  let c := {| Player.currentIndex := 1; Player.isPlaying := true;
              Player.videoError := false; Player.completions := 0 |} in
  Player.currentIndex (Player.goToPrevious (Player.goToNext 3 c)) = 1 /\
  Player.currentIndex (Player.goToNext 3 (Player.goToPrevious c)) = 1.
Proof.
  destruct (Player_next_previous_round_trip 3
              {| Player.currentIndex := 1; Player.isPlaying := true;
                 Player.videoError := false; Player.completions := 0 |})
    as [Ha Hb]; [unfold onItem; simpl; lia|].
  split; [apply Ha|apply Hb]; simpl; lia.
Defined.

(** X24: with auto-play, a playlist played through from item [i] calls
    [onPlaylistComplete] for the first time when its last item ends: the
    [k] "ended" events before that only move the cursor to [i + k], and
    the event on the last item completes and leaves the cursor there. *)
Theorem Player_plays_through :
  forall len c k,
    onItem len c ->
    Player.currentIndex c + Z.of_nat k = Z.of_nat len - 1 ->
    let before := Nat.iter k (Player.handleVideoEnded true len) c in
    let after := Player.handleVideoEnded true len before in
    Player.currentIndex before = Z.of_nat len - 1 /\
    Player.completions before = Player.completions c /\
    Player.currentIndex after = Z.of_nat len - 1 /\
    Player.completions after = S (Player.completions c).
Proof.
  intros len c k Hc Hk before after.
  destruct (ended_before_last len k c Hc) as [Hi Hn]; [lia|].
  fold before in Hi, Hn. subst after.
  rewrite handleVideoEnded_auto. unfold Player.goToNext.
  rewrite Hi, Hk, Z.ltb_irrefl. simpl. rewrite Hi, Hn, Hk.
  repeat split.
Qed.

Lemma Player_plays_through_witness :
  let c := {| Player.currentIndex := 0; Player.isPlaying := false;
              Player.videoError := false; Player.completions := 0 |} in
  let before := Nat.iter 3 (Player.handleVideoEnded true 4) c in
  let after := Player.handleVideoEnded true 4 before in
  Player.currentIndex before = 3 /\
  Player.completions before = 0%nat /\
  Player.currentIndex after = 3 /\
  Player.completions after = 1%nat.
Proof.
  apply (Player_plays_through 4
           {| Player.currentIndex := 0; Player.isPlaying := false;
              Player.videoError := false; Player.completions := 0 |} 3%nat).
  - unfold onItem. simpl. lia.
  - reflexivity.
Defined.

(** ** Resuming, elapsed days, and the day after a session *)

Section AfterSession.

Lemma bumpCompleted_activity k c : activity (bumpCompleted k c) = activity c.
Proof. unfold bumpCompleted. now destruct (_ =? _)%string. Qed.

Lemma markVideoAsPlayed_activity now videoId st :
  map activity (collections (markVideoAsPlayed now videoId st))
  = map activity (collections st).
Proof.
  unfold markVideoAsPlayed. simpl. generalize (collections st).
  induction (videos st) as [|v vs IH]; intros cs; [reflexivity|].
  simpl. rewrite IH. destruct (_ && _); [|reflexivity].
  rewrite map_map. apply map_ext. apply bumpCompleted_activity.
Qed.

Lemma markItemsAsPlayed_activity now items st :
  map activity (collections (markItemsAsPlayed now items st))
  = map activity (collections st).
Proof.
  revert st. induction items as [|item items IH]; intros st; [reflexivity|].
  unfold markItemsAsPlayed in *. simpl. rewrite IH.
  apply markVideoAsPlayed_activity.
Qed.

Lemma active_by_activity cs cs' c :
  map activity cs' = map activity cs ->
  In c cs -> c_isActive c = true ->
  exists c', In c' cs' /\ c_id c' = c_id c /\ c_isActive c' = true.
Proof.
  intros Hmap Hin Hact.
  assert (H : In (activity c) (map activity cs')).
  { rewrite Hmap. now apply in_map. }
  apply in_map_iff in H. destruct H as (c' & Heq & Hin').
  unfold activity in Heq. injection Heq as Hid Ha.
  exists c'. repeat split; congruence.
Qed.

Lemma marked_collections_unknown videoId vs cs :
  (forall v, In v vs -> v_id v <> videoId) ->
  fold_left
    (fun cs video =>
       if (v_id video =? videoId)%string && reachesCompleted video
       then map (bumpCompleted (v_collectionId video)) cs
       else cs) vs cs = cs.
Proof.
  revert cs. induction vs as [|v vs IH]; intros cs H; [reflexivity|].
  simpl. destruct (String.eqb_spec (v_id v) videoId) as [E|E].
  - exfalso. apply (H v); [left; reflexivity|exact E].
  - simpl. apply IH. intros w Hw. apply H. right. exact Hw.
Qed.

(** With distinct ids, only the video found under the id decides whether
    the collections are touched. *)
Lemma marked_collections_single videoId vs v cs :
  NoDup (map v_id vs) ->
  find (fun w => (v_id w =? videoId)%string) vs = Some v ->
  fold_left
    (fun cs video =>
       if (v_id video =? videoId)%string && reachesCompleted video
       then map (bumpCompleted (v_collectionId video)) cs
       else cs) vs cs
  = if reachesCompleted v then map (bumpCompleted (v_collectionId v)) cs
    else cs.
Proof.
  intros Hnd. revert cs. induction vs as [|a vs IH]; intros cs Hfind;
    [discriminate|].
  simpl in Hnd. inversion Hnd as [|? ? Hnotin Hnd']; subst.
  simpl in Hfind. simpl.
  destruct (String.eqb_spec (v_id a) videoId) as [E|E].
  - injection Hfind as <-. simpl.
    apply marked_collections_unknown. intros w Hw Hid.
    apply Hnotin. rewrite E, <- Hid. apply in_map. exact Hw.
  - simpl. apply IH; assumption.
Qed.

End AfterSession.



(** X26: [getDaysSinceFirstPlay] counts the whole periods of 24 hours
    elapsed since the first playthrough: it is [d] exactly between [d]
    and [d + 1] days after it, whatever the calendar days are. (The
    source divides in floating point; the quotient of two such integers
    has the same floor for every span a [Date] pair of this millennium
    can give.) *)
Theorem getDaysSinceFirstPlay_whole_days :
  forall now first d,
    getDaysSinceFirstPlay now first = d <->
    addDays first d <= now < addDays first (d + 1).
Proof.
  intros now first d. unfold getDaysSinceFirstPlay, addDays.
  pose proof MS_PER_DAY_pos as Hpos.
  pose proof (Z.div_mod (now - first) MS_PER_DAY ltac:(lia)) as Hdm.
  pose proof (Z.mod_pos_bound (now - first) MS_PER_DAY Hpos) as Hb.
  split.
  - intros <-. nia.
  - intros H. symmetry.
    apply (Z.div_unique_pos _ _ d (now - first - d * MS_PER_DAY)); lia.
Qed.

(** X27: completing a session makes its fresh videos due the next day:
    a never-played video of an active collection that one item of the
    completed session names is listed by [getTodayReviews], as its second
    appearance, on every day from the day after the completion on. *)
Theorem completed_session_due_next_day :
  forall now s index st p v c t,
    find (fun q => (p_id q =? s)%string) (playlists st) = Some p ->
    In v (videos st) ->
    v_firstPlayDate v = None ->
    occurrences (v_id v) (p_items p) = 1%nat ->
    In c (collections st) -> c_id c = v_collectionId v ->
    c_isActive c = true ->
    addDays (midnight now) 1 <= midnight t ->
    let st' := updatePlaylistProgress now s index true st in
    exists item,
      In item (getTodayReviews t st') /\
      i_videoId item = v_id v /\ i_reviewType item = PtReview /\
      i_reviewNumber item = 2%nat.
Proof.
  intros now s index st p v c t Hfind Hv Hfresh Hocc Hc Hcid Hact Ht st'.
  exists (reviewItem t (playedVideo now v)).
  assert (Hplayed : playedVideo now v =
            {| v_id := v_id v; v_name := v_name v;
               v_fileUrl := v_fileUrl v; v_dateAdded := v_dateAdded v;
               v_reviewCount := 1; v_status := StLearning;
               v_collectionId := v_collectionId v;
               v_episodeNumber := v_episodeNumber v;
               v_firstPlayDate := Some now;
               v_nextReviewDate :=
                 Some (midnight (addDays now (interval 0))) |}).
  { unfold playedVideo. now rewrite Hfresh. }
  split; [|rewrite Hplayed; repeat split].
  unfold getTodayReviews. apply in_map. apply reviewVideos_In. split.
  - subst st'. rewrite (complete_videos _ _ _ _ _ Hfind).
    apply in_map_iff. exists v. split; [|exact Hv]. now rewrite Hocc.
  - unfold dueAt. split; [|split].
    + exists (midnight (addDays now (interval 0))).
      split; [now rewrite Hplayed|].
      rewrite midnight_idem, midnight_addDays. exact Ht.
    + rewrite Hplayed. discriminate.
    + rewrite playedVideo_collectionId, <- Hcid.
      apply (active_by_activity (collections st)); try assumption.
      subst st'. unfold updatePlaylistProgress. rewrite Hfind.
      rewrite markItemsAsPlayed_activity. reflexivity.
Qed.

Lemma completed_session_due_next_day_witness :
  let st' := updatePlaylistProgress (Sample.at10 0) "s1" 2 true
                                    (Sample.store 0 false) in
  exists item,
    In item (getTodayReviews (Sample.at10 1) st') /\
    i_videoId item = "v1" /\ i_reviewType item = PtReview /\
    i_reviewNumber item = 2%nat.
Proof.
  apply (completed_session_due_next_day (Sample.at10 0) "s1" 2%nat
           (Sample.store 0 false) (Sample.session ["v1"; "v2"] 0 false)
           (Sample.clipOf "v1") Sample.lessons (Sample.at10 1));
    try reflexivity.
  - left. reflexivity.
  - left. reflexivity.
Defined.

(** X28: with distinct video ids, [markVideoAsPlayed] adds 1 to
    [completedVideos] of the video's collection exactly when the video had
    been played four times or more before, and leaves the collections as
    they are otherwise; a video that is already completed is counted
    again. *)
Theorem markVideoAsPlayed_counts_completion :
  forall now videoId st v,
    NoDup (map v_id (videos st)) ->
    getVideoById videoId st = Some v ->
    collections (markVideoAsPlayed now videoId st) =
      (if reachesCompleted v
       then map (bumpCompleted (v_collectionId v)) (collections st)
       else collections st) /\
    (reachesCompleted v = true <->
     v_firstPlayDate v <> None /\ (4 <= v_reviewCount v)%nat).
Proof.
  intros now videoId st v Hnd Hfind. split.
  - unfold markVideoAsPlayed. simpl.
    now apply marked_collections_single.
  - unfold reachesCompleted. destruct (v_firstPlayDate v).
    + rewrite negb_true_iff, Nat.ltb_ge. split.
      * intros H. split; [discriminate|lia].
      * intros [_ H]. lia.
    + split; [discriminate|]. intros [H _]. congruence.
Qed.

Lemma markVideoAsPlayed_counts_completion_witness :
  let st := {| videos := [Sample.mastered]; playlists := [];
               collections := [Sample.lessons] |} in
  reachesCompleted Sample.mastered = true /\
  map c_completedVideos (collections st) = [0%nat] /\
  map c_completedVideos
      (collections (markVideoAsPlayed (Sample.at10 30) "v1" st)) = [1%nat].
Proof.
  cbv zeta.
  destruct (markVideoAsPlayed_counts_completion (Sample.at10 30) "v1"
              {| videos := [Sample.mastered]; playlists := [];
                 collections := [Sample.lessons] |} Sample.mastered)
    as [Hc _].
  - repeat constructor. simpl. intuition.
  - reflexivity.
  - rewrite Hc. repeat split.
Defined.

(** ** The plain video list *)

Section ManagedVideos.

Import VideoManager.

Lemma endsWithCI_app suffix base t :
  lowerString t = suffix -> endsWithCI suffix (base ++ t) = true.
Proof.
  intros <-. induction base as [|c base IH].
  - change (EmptyString ++ t) with t.
    destruct t; cbn [endsWithCI]; rewrite String.eqb_refl; reflexivity.
  - cbn [append endsWithCI]. rewrite IH. apply orb_true_r.
Qed.

Lemma endsWithCI_split suffix s :
  endsWithCI suffix s = true ->
  exists base t, s = base ++ t /\ lowerString t = suffix.
Proof.
  induction s as [|c s IH]; cbn [endsWithCI]; intros H.
  - rewrite orb_false_r in H. apply String.eqb_eq in H.
    exists EmptyString, EmptyString. split; [reflexivity|exact H].
  - apply orb_true_iff in H. destruct H as [H|H].
    + apply String.eqb_eq in H. exists EmptyString, (String c s).
      split; [reflexivity|exact H].
    + destruct (IH H) as (base & t & -> & Ht).
      exists (String c base), t. split; [reflexivity|exact Ht].
Qed.

Lemma lowerAscii_dot c : lowerAscii c = "."%char -> c = "."%char.
Proof.
  unfold lowerAscii.
  destruct ((65 <=? nat_of_ascii c) && (nat_of_ascii c <=? 90))%nat eqn:E;
    [|auto].
  intros H. apply andb_true_iff in E. destruct E as [E1 E2].
  apply Nat.leb_le in E1. apply Nat.leb_le in E2.
  apply (f_equal nat_of_ascii) in H.
  rewrite nat_ascii_embedding in H by lia.
  change (nat_of_ascii "."%char) with 46%nat in H. lia.
Qed.

End ManagedVideos.

(** X29: [useVideoManager]: deleting the video just added under an id
    that no listed video has gives back the list as it was. *)
Theorem VideoManager_delete_after_add :
  forall file collectionId uuid url now videos,
    (forall v, In v videos -> VideoManager.m_id v <> uuid) ->
    let added := VideoManager.addVideo file collectionId uuid url now videos in
    fst added = uuid /\
    VideoManager.deleteVideo (fst added) (snd added) = videos.
Proof.
  intros file c uuid url now videos H added. subst added.
  unfold VideoManager.addVideo, VideoManager.deleteVideo. simpl.
  split; [reflexivity|].
  rewrite filter_app. simpl. rewrite String.eqb_refl. simpl.
  rewrite app_nil_r. apply filter_all. intros v Hv.
  apply negb_true_iff, String.eqb_neq. now apply H.
Qed.

Lemma VideoManager_delete_after_add_witness :
  let file := {| VideoManager.f_name := "song.mp3";
                 VideoManager.f_type := "audio/mpeg";
                 VideoManager.f_size := 1024 |} in
  let added := VideoManager.addVideo file "c1" "m1" "blob:m1" 0 [] in
  fst added = "m1" /\
  VideoManager.deleteVideo (fst added) (snd added) = [].
Proof.
  apply (VideoManager_delete_after_add
           {| VideoManager.f_name := "song.mp3";
              VideoManager.f_type := "audio/mpeg";
              VideoManager.f_size := 1024 |} "c1" "m1" "blob:m1" 0 []).
  intros v [].
Defined.

(** X30: [useVideoManager] takes a file for audio exactly when its type
    starts with ["audio/"] or its name ends in a dot and one of the seven
    audio extensions, in any mix of upper and lower case. *)
Theorem VideoManager_isAudio_spec :
  forall file,
    VideoManager.isAudio file = true <->
    prefix "audio/" (VideoManager.f_type file) = true \/
    exists base ext,
      VideoManager.f_name file = base ++ String "." ext /\
      In (VideoManager.lowerString ext) VideoManager.audioExtensions.
Proof.
  intros file. unfold VideoManager.isAudio.
  rewrite orb_true_iff, existsb_exists. split.
  - intros [H|(e & Hin & H)]; [now left|right].
    apply endsWithCI_split in H. destruct H as (base & t & Hname & Ht).
    destruct t as [|c t]; [discriminate|]. simpl in Ht.
    injection Ht as Hc Ht. apply lowerAscii_dot in Hc. subst c.
    exists base, t. split; [exact Hname|]. now rewrite Ht.
  - intros [H|(base & ext & Hname & Hin)]; [now left|right].
    exists (VideoManager.lowerString ext). split; [exact Hin|].
    rewrite Hname. apply endsWithCI_app. reflexivity.
Qed.

(** Names and types as they come. *)
Example VideoManager_isAudio_samples :
  let file name type :=
    {| VideoManager.f_name := name; VideoManager.f_type := type;
       VideoManager.f_size := 0 |} in
  VideoManager.isAudio (file "Lesson 1.MP3" "") = true /\
  VideoManager.isAudio (file "take.Flac" "application/octet-stream") = true /\
  VideoManager.isAudio (file "clip" "audio/mpeg") = true /\
  VideoManager.isAudio (file "clip.mp4" "video/mp4") = false /\
  VideoManager.isAudio (file "mp3" "") = false.
Proof. repeat split. Qed.

(** ** The sample store satisfies the rules used above *)

Lemma Sample_store_Resolved lastPlayedIndex isCompleted :
  Resolved (Sample.store lastPlayedIndex isCompleted).
Proof.
  intros p item [<-|[]] [<-|[<-|[]]]; vm_compute; discriminate.
Qed.

Lemma removeVideoById_keeps_items_resolved_witness :
  let st' := removeVideoById true "v1" (Sample.store 0 false) in
  (forall p item, In p (playlists st') -> In item (p_items p) ->
                  i_videoId item <> "v1") /\
  Resolved st'.
Proof.
  destruct (removeVideoById_keeps_items_resolved true "v1"
              (Sample.store 0 false)) as [Ha Hb].
  split; [exact Ha|]. apply Hb. apply Sample_store_Resolved.
Defined.

Lemma createTodayPlaylist_stores_result_witness :
  let made :=
    createTodayPlaylist PtNew false (Sample.at10 0) "uuid-1" Sample.bare in
  In (fst made) (playlists (snd made)) /\
  atMostOneOpenNew (snd made).
Proof.
  destruct (createTodayPlaylist_stores_result PtNew false (Sample.at10 0)
              "uuid-1" Sample.bare) as (Ha & _ & _ & Hb).
  split; [exact Ha|]. apply Hb; [reflexivity|].
  intros day. simpl. lia.
Defined.

Lemma played_video_leaves_todays_lists_witness :
  let st' := markVideoAsPlayed (Sample.at10 0) "v1" (Sample.store 0 false) in
  In (Sample.newItem "v2") (getTodayNewVideos false st') /\
  i_videoId (Sample.newItem "v2") <> "v1".
Proof.
  split; [left; reflexivity|].
  apply (played_video_leaves_todays_lists (Sample.at10 0) "v1"
           (Sample.store 0 false) false (Sample.newItem "v2")).
  right. left. reflexivity.
Defined.
